(** * pyrandr2: displays as objects, and the xrandr command they synthesise

    A shallow embedding of [pyrandr2/randr.py]: the [Mode] value, the
    [ScreenSettings] aggregate with its change table, the guarded property
    setters of [Display], [build_cmd], [update_setting] and [apply_settings],
    and the two converters [RotateDirection] and [PositionType].

    Python objects are mutated in place and methods may raise, so methods are
    written in a state-and-exception monad over the object they mutate: a
    call returns the outcome (an exception or a value) together with the
    object as the call left it. *)

From Stdlib Require Import String Ascii ZArith QArith List Bool Lia.
From Stdlib Require Import DecimalString.
Import ListNotations.

Local Open Scope string_scope.
Local Open Scope Z_scope.

(* ------------------------------------------------------------------ *)
(** ** Python strings (ASCII) *)

(** [str.lower()] and [str.strip()] on ASCII text: the only strings the
    module handles are xrandr's flags, output names and rotation words. *)
Definition lower_ascii (c : ascii) : ascii :=
  let n := nat_of_ascii c in
  if (Nat.leb 65 n && Nat.leb n 90)%bool then ascii_of_nat (n + 32) else c.

Fixpoint lower (s : string) : string :=
  match s with
  | EmptyString => EmptyString
  | String c s' => String (lower_ascii c) (lower s')
  end.

(** What [str.strip()] removes, among ASCII: space, tab to carriage return
    (9 to 13) and the four separators 28 to 31. *)
Definition is_space (c : ascii) : bool :=
  let n := nat_of_ascii c in
  (Nat.eqb n 32 || (Nat.leb 9 n && Nat.leb n 13)
   || (Nat.leb 28 n && Nat.leb n 31))%bool.

Fixpoint lstrip (s : string) : string :=
  match s with
  | EmptyString => EmptyString
  | String c s' => if is_space c then lstrip s' else s
  end.

Fixpoint string_rev_onto (s acc : string) : string :=
  match s with
  | EmptyString => acc
  | String c s' => string_rev_onto s' (String c acc)
  end.

Definition string_rev (s : string) : string := string_rev_onto s EmptyString.

Definition strip (s : string) : string :=
  string_rev (lstrip (string_rev (lstrip s))).

(** ['{0}'.format(n)] for an int. *)
Definition str_of_int (n : Z) : string :=
  NilZero.string_of_int (Z.to_int n).

(** Truth value of an optional string: [None] and [''] are false. *)
Definition truthy (o : option string) : bool :=
  match o with
  | Some s => negb (String.eqb s "")
  | None => false
  end.

(* ------------------------------------------------------------------ *)
(** ** Exceptions *)

(** The extra arguments an exception of this module is raised with. *)
Inductive pyarg : Type :=
| ArgNone
| ArgInt (n : Z)
| ArgStr (s : string)
| ArgPair (p : Z * Z).

Inductive exn : Type :=
| ValueError (msg : string) (args : list pyarg)
| KeyError (key : string)
| AttributeError (msg : string)
| IndexError (msg : string)
| TypeError (msg : string)
| CalledProcessError (returncode : Z) (output : string)
| OSError (msg : string).

(** The spec's error names, as the [ValueError]s the code raises. *)
Definition DisplayOffError : exn := ValueError "The Screen is off" [].
Definition UnsupportedResolutionError (new_res : Z * Z) : exn :=
  ValueError "Requested resolution is not supported" [ArgPair new_res].
Definition InvalidRotationError (item : pyarg) : exn :=
  ValueError "Invalid rotation " [item].
Definition InvalidPositionError (item : pyarg) : exn :=
  ValueError "Invalid position" [item].

Definition result (A : Type) : Type := (exn + A)%type.

(* ------------------------------------------------------------------ *)
(** ** The state-and-exception monad *)

Definition M (S A : Type) : Type := S -> result A * S.

Definition ret {S A : Type} (a : A) : M S A := fun s => (inr a, s).

Definition raise {S A : Type} (e : exn) : M S A := fun s => (inl e, s).

Definition bind {S A B : Type} (m : M S A) (k : A -> M S B) : M S B :=
  fun s =>
    match m s with
    | (inr a, s') => k a s'
    | (inl e, s') => (inl e, s')
    end.

Definition get {S : Type} : M S S := fun s => (inr s, s).

Definition modify {S : Type} (f : S -> S) : M S unit := fun s => (inr tt, f s).

(** A call that cannot mutate the object: a pure, possibly failing value. *)
Definition lift {S A : Type} (r : result A) : M S A := fun s => (r, s).

Declare Scope py_scope.
Delimit Scope py_scope with py.
Notation "x <- m ;; k" := (bind m (fun x => k))
  (at level 61, m at next level, right associativity) : py_scope.
Notation "m ;; k" := (bind m (fun _ => k))
  (at level 61, right associativity) : py_scope.

Definition when {S : Type} (b : bool) (m : M S unit) : M S unit :=
  if b then m else ret tt.

(* ------------------------------------------------------------------ *)
(** ** Mode *)

Module Mode.

Record t : Type := Mode {
  width : Z;
  height : Z;
  freq : Q;
  current : bool;
  preferred : bool
}.

(** [resolution()]: the pair. *)
Definition resolution (m : t) : Z * Z := (width m, height m).

(** [resolution(True)]: ['{0}x{1}'.format(width, height)]. *)
Definition resolution_string (m : t) : string :=
  str_of_int (width m) ++ "x" ++ str_of_int (height m).

End Mode.

(** A [Mode] instance. The class defines no [__eq__], so two instances are
    the same only when they are one object: [addr] stands for [id(mode)]. *)
Record ModeObj : Type := { addr : nat; obj : Mode.t }.

(* ------------------------------------------------------------------ *)
(** ** RotateDirection and PositionType *)

Module RotateDirection.

(** [__rotation] *)
Definition rotation_table : list (Z * string) :=
  [(0, "normal"); (90, "right"); (180, "inverted"); (270, "left")].

(** [__inverted_rot = {v: k for k, v in __rotation.items()}] *)
Definition inverted_rot : list (string * Z) :=
  map (fun kv => (snd kv, fst kv)) rotation_table.

Fixpoint lookup_int (k : Z) (t : list (Z * string)) : option string :=
  match t with
  | [] => None
  | (k', v) :: t' => if Z.eqb k k' then Some v else lookup_int k t'
  end.

Fixpoint lookup_str (k : string) (t : list (string * Z)) : option Z :=
  match t with
  | [] => None
  | (k', v) :: t' => if String.eqb k k' then Some v else lookup_str k t'
  end.

(** [__getitem__] on an [int]. *)
Definition getitem_int (item : Z) : result string :=
  match lookup_int item rotation_table with
  | Some v => inr v
  | None => inl (InvalidRotationError (ArgInt item))
  end.

(** [__getitem__] on a [str]: the lookup is on the lowered, stripped item,
    and that is also what the error carries. *)
Definition getitem_str (item : string) : result Z :=
  let item := strip (lower item) in
  match lookup_str item inverted_rot with
  | Some v => inr v
  | None => inl (InvalidRotationError (ArgStr item))
  end.

(** [__getitem__]: dispatch on [isinstance]. *)
Definition getitem (item : Z + string) : result (string + Z) :=
  match item with
  | inl n => match getitem_int n with inr v => inr (inl v) | inl e => inl e end
  | inr s => match getitem_str s with inr v => inr (inr v) | inl e => inl e end
  end.

End RotateDirection.

Module PositionType.

(** [__positions] *)
Definition positions : list (string * string) :=
  [("leftof", "--left-of"); ("rightof", "--right-of"); ("above", "--above");
   ("below", "--below"); ("sameas", "--same-as")].

Fixpoint lookup (k : string) (t : list (string * string)) : option string :=
  match t with
  | [] => None
  | (k', v) :: t' => if String.eqb k k' then Some v else lookup k t'
  end.

(** [__getitem__]: [None] is not a [str], so it goes straight to the
    [raise]; a [str] is lowered first and the error carries the lowered
    item. *)
Definition getitem (item : option string) : result string :=
  match item with
  | Some s =>
      let s := lower s in
      match lookup s positions with
      | Some v => inr v
      | None => inl (InvalidPositionError (ArgStr s))
      end
  | None => inl (InvalidPositionError ArgNone)
  end.

End PositionType.

(* ------------------------------------------------------------------ *)
(** ** Comparisons the setters make *)

Definition res_eqb (a b : Z * Z) : bool :=
  (Z.eqb (fst a) (fst b) && Z.eqb (snd a) (snd b))%bool.

Definition opt_eqb {A : Type} (eqb : A -> A -> bool) (a b : option A) : bool :=
  match a, b with
  | Some x, Some y => eqb x y
  | None, None => true
  | _, _ => false
  end.

Definition str_pair_eqb (a b : string * string) : bool :=
  (String.eqb (fst a) (fst b) && String.eqb (snd a) (snd b))%bool.

(** [new_res in available_resolutions()] *)
Definition res_in (r : Z * Z) (l : list (Z * Z)) : bool := existsb (res_eqb r) l.

(** [any(...)] over a list of bools. *)
Definition any (l : list bool) : bool := existsb (fun b => b) l.

(* ------------------------------------------------------------------ *)
(** ** ScreenSettings *)

(** [change_table]: a dict whose five keys are fixed at creation and only
    ever read and written by literal key, kept here as one flag per key, in
    the dict's insertion order. *)
Module ChangeTable.

Record t : Type := Build {
  resolution : bool;
  is_primary : bool;
  is_enabled : bool;
  rotation : bool;
  position : bool
}.

Definition values (c : t) : list bool :=
  [resolution c; is_primary c; is_enabled c; rotation c; position c].

Definition set_resolution (b : bool) (c : t) : t :=
  Build b (is_primary c) (is_enabled c) (rotation c) (position c).
Definition set_is_primary (b : bool) (c : t) : t :=
  Build (resolution c) b (is_enabled c) (rotation c) (position c).
Definition set_is_enabled (b : bool) (c : t) : t :=
  Build (resolution c) (is_primary c) b (rotation c) (position c).
Definition set_rotation (b : bool) (c : t) : t :=
  Build (resolution c) (is_primary c) (is_enabled c) b (position c).
Definition set_position (b : bool) (c : t) : t :=
  Build (resolution c) (is_primary c) (is_enabled c) (rotation c) b.

Definition all_false : t := Build false false false false false.

End ChangeTable.

Module ScreenSettings.

(** [position] is a pair: [(None, None)] at creation, written here [None],
    and a pair of strings once the setter has stored one. *)
Record t : Type := Build {
  name : string;
  resolution : Z * Z;
  is_primary : bool;
  is_enabled : bool;
  rotation : option string;
  position : option (string * string);
  is_connected : bool;
  curr_mode : option ModeObj;
  modes : list ModeObj;
  change_table : ChangeTable.t
}.

(** [ScreenSettings()], with the name [Display.__init__] gives it in its
    next statement. *)
Definition init (name : string) : t :=
  Build name (0, 0) false true None None true None [] ChangeTable.all_false.

Definition with_resolution (v : Z * Z) (s : t) : t :=
  Build (name s) v (is_primary s) (is_enabled s) (rotation s) (position s)
        (is_connected s) (curr_mode s) (modes s) (change_table s).
Definition with_is_primary (v : bool) (s : t) : t :=
  Build (name s) (resolution s) v (is_enabled s) (rotation s) (position s)
        (is_connected s) (curr_mode s) (modes s) (change_table s).
Definition with_is_enabled (v : bool) (s : t) : t :=
  Build (name s) (resolution s) (is_primary s) v (rotation s) (position s)
        (is_connected s) (curr_mode s) (modes s) (change_table s).
Definition with_rotation (v : option string) (s : t) : t :=
  Build (name s) (resolution s) (is_primary s) (is_enabled s) v (position s)
        (is_connected s) (curr_mode s) (modes s) (change_table s).
Definition with_position (v : option (string * string)) (s : t) : t :=
  Build (name s) (resolution s) (is_primary s) (is_enabled s) (rotation s) v
        (is_connected s) (curr_mode s) (modes s) (change_table s).
Definition with_is_connected (v : bool) (s : t) : t :=
  Build (name s) (resolution s) (is_primary s) (is_enabled s) (rotation s)
        (position s) v (curr_mode s) (modes s) (change_table s).
Definition with_curr_mode (v : option ModeObj) (s : t) : t :=
  Build (name s) (resolution s) (is_primary s) (is_enabled s) (rotation s)
        (position s) (is_connected s) v (modes s) (change_table s).
Definition with_modes (v : list ModeObj) (s : t) : t :=
  Build (name s) (resolution s) (is_primary s) (is_enabled s) (rotation s)
        (position s) (is_connected s) (curr_mode s) v (change_table s).
Definition with_change_table (f : ChangeTable.t -> ChangeTable.t) (s : t) : t :=
  Build (name s) (resolution s) (is_primary s) (is_enabled s) (rotation s)
        (position s) (is_connected s) (curr_mode s) (modes s)
        (f (change_table s)).

End ScreenSettings.

(** The record xrandr's output is parsed into for one connected output: the
    [groupdict()] of the output line, plus the key ['modes'] when at least
    one mode line followed it ([None] here: the key is missing). The groups
    [pr] and [rot] are always keys of a [groupdict()]; a dict made by hand
    without them is not a value of this type. *)
Module Raw.
Record t : Type := Build {
  out : string;
  pr : option string;
  rot : option string;
  modes : option (list ModeObj)
}.
End Raw.

(** A command: the list handed to [exec_cmd]. Its items are [str] objects,
    except that [build_cmd] appends the stored rotation as it is. *)
Definition token : Type := option string.
Definition command : Type := list token.

(* ------------------------------------------------------------------ *)
(** ** Display *)

Module Display.

Import ScreenSettings.

(** The object's state is its private [__cfg]; the two converters it also
    holds have no state. *)
Definition t : Type := ScreenSettings.t.

Definition is_changed (d : t) : ChangeTable.t := change_table d.
Definition current_mode (d : t) : option ModeObj := curr_mode d.
Definition available_modes (d : t) : list ModeObj := modes d.

Local Open Scope py_scope.

(** [position.setter]. The comparison is on the argument as given; what is
    stored has its first component lowered. *)
Definition position_setter (new_pos : option (string * string)) : M t unit :=
  d <- get ;;
  when (negb (opt_eqb str_pair_eqb new_pos (position d)))
    match new_pos with
    | Some (rel, rel_to) =>
        modify (with_position (Some (lower rel, rel_to))) ;;
        modify (with_change_table (ChangeTable.set_position true))
    | None => raise (AttributeError "'NoneType' object has no attribute 'lower'")
    end.

(** [is_enabled.setter] *)
Definition is_enabled_setter (enable : bool) : M t unit :=
  d <- get ;;
  when (negb (Bool.eqb enable (is_enabled d)))
    (modify (fun d => with_is_enabled (negb (is_enabled d)) d) ;;
     modify (with_change_table
               (fun c => ChangeTable.set_is_enabled
                           (negb (ChangeTable.is_enabled c)) c))).

(** [is_primary.setter] *)
Definition is_primary_setter (is_primary' : bool) : M t unit :=
  d <- get ;;
  when (negb (Bool.eqb is_primary' (is_primary d)))
    (modify (fun d => with_is_primary (negb (is_primary d)) d) ;;
     modify (with_change_table
               (fun c => ChangeTable.set_is_primary
                           (negb (ChangeTable.is_primary c)) c))).

(** [available_resolutions()] *)
Definition available_resolutions (d : t) : list (Z * Z) :=
  map (fun r => Mode.resolution (obj r)) (modes d).

(** [available_resolutions(True)] *)
Definition available_resolutions_string (d : t) : list string :=
  map (fun r => Mode.resolution_string (obj r)) (modes d).

(** [check_resolution] *)
Definition check_resolution (new_res : Z * Z) : M t unit :=
  d <- get ;;
  when (negb (res_in new_res (available_resolutions d)))
    (raise (UnsupportedResolutionError new_res)).

(** [resolution.setter] *)
Definition resolution_setter (new_res : Z * Z) (custom : bool) : M t unit :=
  d <- get ;;
  if (negb (is_enabled d) && negb (ChangeTable.is_enabled (is_changed d)))%bool
  then raise DisplayOffError
  else
    when (negb (res_eqb new_res (resolution d)))
      (when (negb custom) (check_resolution new_res) ;;
       modify (with_resolution new_res) ;;
       modify (with_change_table (ChangeTable.set_resolution true))).

(** [rotation.setter]: [direction] is an [int] or a [str]. *)
Definition rotation_setter (direction : Z + string) : M t unit :=
  direction <- match direction with
               | inl n => lift (RotateDirection.getitem_int n)
               | inr s => ret s
               end ;;
  d <- get ;;
  when (negb (opt_eqb String.eqb (Some direction) (rotation d)))
    (modify (with_rotation (Some direction)) ;;
     modify (with_change_table (ChangeTable.set_rotation true))).

(** [build_cmd]: [inr None] is the [False] it returns when nothing is
    pending. The method reads the object and does not write it. *)
Definition build_cmd (d : t) : result (option command) :=
  if any (ChangeTable.values (is_changed d)) then
    let cmd := [Some "xrandr"; Some "--output"; Some (name d)] in
    if (ChangeTable.is_enabled (is_changed d) && negb (is_enabled d))%bool
    then inr (Some (cmd ++ [Some "--off"])%list)
    else
      let cmd :=
        if ChangeTable.resolution (is_changed d)
        then (cmd ++ [Some "--mode";
                      Some (str_of_int (fst (resolution d)) ++ "x"
                            ++ str_of_int (snd (resolution d)))%string])%list
        else (cmd ++ [Some "--auto"])%list in
      let cmd :=
        if (is_primary d && ChangeTable.is_primary (is_changed d))%bool
        then (cmd ++ [Some "--primary"])%list else cmd in
      let cmd :=
        if ChangeTable.rotation (is_changed d)
        then (cmd ++ [Some "--rotate"; rotation d])%list else cmd in
      if ChangeTable.position (is_changed d) then
        match PositionType.getitem (option_map fst (position d)) with
        | inr flag =>
            inr (Some (cmd ++ [Some flag; option_map snd (position d)])%list)
        | inl e => inl e
        end
      else inr (Some cmd)
  else inr None.

(** [__reset_change_table] *)
Definition reset_change_table : M t unit :=
  modify (with_change_table (fun _ => ChangeTable.all_false)).

(** The [for] loop of [update_setting]: the first current mode, [None]
    once a mode that is not current has been passed, and [curr] itself
    when the loop body never runs. *)
Fixpoint scan_current (l : list ModeObj) (curr : option ModeObj)
  : option ModeObj :=
  match l with
  | [] => curr
  | mode :: l' =>
      if Mode.current (obj mode) then Some mode else scan_current l' None
  end.

Definition is_some {A : Type} (o : option A) : bool :=
  match o with Some _ => true | None => false end.

(** [update_setting] from its first assignment on, [raw_setting] at hand. *)
Definition update_from (raw_setting : Raw.t) : M t unit :=
  raw_modes <- match Raw.modes raw_setting with
               | Some l => ret l
               | None => raise (KeyError "modes")
               end ;;
  modify (with_modes raw_modes) ;;
  modify (fun d => with_curr_mode (scan_current raw_modes (curr_mode d)) d) ;;
  modify (fun d => with_is_enabled (is_some (curr_mode d)) d) ;;
  modify (fun d => with_is_connected
                     (match modes d with [] => false | _ => true end) d) ;;
  rot <- (if truthy (Raw.rot raw_setting)
          then ret (Raw.rot raw_setting)
          else r <- lift (RotateDirection.getitem_int 0) ;; ret (Some r)) ;;
  modify (with_rotation rot) ;;
  modify (with_is_primary (truthy (Raw.pr raw_setting))) ;;
  d <- get ;;
  match (if is_enabled d then current_mode d else None) with
  | Some m => modify (with_resolution (Mode.resolution (obj m)))
  | None => ret tt
  end ;;
  reset_change_table.

(** [Display(name, raw_setting)], for a [raw_setting] that is given. *)
Definition init (name : string) (raw_setting : Raw.t) : result t :=
  match update_from raw_setting (ScreenSettings.init name) with
  | (inr _, d) => inr d
  | (inl e, _) => inl e
  end.

End Display.

(* ------------------------------------------------------------------ *)
(** ** The world outside: running xrandr and reading its output *)

Section World.

(** Whatever xrandr acts on and reports: the X server and its outputs. *)
Variable W : Type.

(** [exec_cmd]: runs the command and returns its output lines;
    [check_output] raises when the command cannot be run or exits with a
    status other than zero. *)
Variable exec_cmd : command -> M W (list string).

(** [parse_xrandr(lines, True)]: the raw records, one per connected
    output. *)
Variable parse_xrandr_raw : list string -> result (list Raw.t).

Local Open Scope py_scope.

(** [get_display_data] *)
Definition get_display_data (output : string) : M W Raw.t :=
  lines <- exec_cmd [Some "xrandr"] ;;
  items <- lift (parse_xrandr_raw lines) ;;
  match find (fun item => String.eqb (Raw.out item) output) items with
  | Some item => ret item
  | None => raise (ValueError "Invalid output" [ArgStr output])
  end.

(** A method of the display, and a call into the world, as steps of a
    program that has both. *)
Definition on_display {A : Type} (m : M Display.t A) : M (Display.t * W) A :=
  fun s => let (r, d) := m (fst s) in (r, (d, snd s)).

Definition in_world {A : Type} (m : M W A) : M (Display.t * W) A :=
  fun s => let (r, w) := m (snd s) in (r, (fst s, w)).

Definition update_setting (raw_setting : option Raw.t) : M (Display.t * W) unit :=
  raw_setting <- match raw_setting with
                 | Some r => ret r
                 | None =>
                     d <- on_display get ;;
                     in_world (get_display_data (ScreenSettings.name d))
                 end ;;
  on_display (Display.update_from raw_setting).

(** [apply_settings]. Under [any(is_changed.values())], [build_cmd] does
    not return [False]; [exec_cmd(False)] would be a [TypeError]. *)
Definition apply_settings (default : bool) : M (Display.t * W) unit :=
  d <- on_display get ;;
  (if default then
     _ <- in_world (exec_cmd [Some "xrandr"; Some "--output";
                              Some (ScreenSettings.name d); Some "--auto"]) ;;
     ret tt
   else
     when (any (ChangeTable.values (Display.is_changed d)))
       (cmd <- lift (Display.build_cmd d) ;;
        match cmd with
        | Some cmd => _ <- in_world (exec_cmd cmd) ;; ret tt
        | None => raise (TypeError "expected a command")
        end)) ;;
  update_setting None ;;
  on_display Display.reset_change_table.

End World.

Arguments get_display_data {W} exec_cmd parse_xrandr_raw output _.
Arguments on_display {W A} m _.
Arguments in_world {W A} m _.
Arguments update_setting {W} exec_cmd parse_xrandr_raw raw_setting _.
Arguments apply_settings {W} exec_cmd parse_xrandr_raw default _.

(* ------------------------------------------------------------------ *)
(** ** Calls on a display, and the displays a program can hold *)

Inductive call : Type :=
| SetPosition (new_pos : option (string * string))
| SetEnabled (enable : bool)
| SetPrimary (is_primary : bool)
| SetResolution (new_res : Z * Z) (custom : bool)
| SetRotation (direction : Z + string)
| UpdateSetting (raw_setting : Raw.t).

(** [UpdateSetting r] stands for [update_setting(r)] and, with [r] the record
    the query returned, for [update_setting()] and the refresh that ends
    [apply_settings]. *)
Definition run_call (c : call) : M Display.t unit :=
  match c with
  | SetPosition p => Display.position_setter p
  | SetEnabled b => Display.is_enabled_setter b
  | SetPrimary b => Display.is_primary_setter b
  | SetResolution r custom => Display.resolution_setter r custom
  | SetRotation a => Display.rotation_setter a
  | UpdateSetting r => Display.update_from r
  end.

(** A run of calls; one that raises leaves the object as it is at that
    point, and the caller goes on. *)
Fixpoint run_calls (cs : list call) (d : Display.t) : Display.t :=
  match cs with
  | [] => d
  | c :: cs' => run_calls cs' (snd (run_call c d))
  end.

Inductive reachable : Display.t -> Prop :=
| reach_init name raw_setting d :
    Display.init name raw_setting = inr d -> reachable d
| reach_call c d :
    reachable d -> reachable (snd (run_call c d)).

(* ------------------------------------------------------------------ *)
(** ** The scenario display of the spec *)

Definition mode_1080 : ModeObj :=
  {| addr := 1; obj := Mode.Mode 1920 1080 (60 # 1) true true |}.

Definition raw_hdmi1 : Raw.t :=
  Raw.Build "HDMI-1" None (Some "normal") (Some [mode_1080]).

Definition hdmi1 : Display.t :=
  snd (Display.update_from raw_hdmi1 (ScreenSettings.init "HDMI-1")).

(** A connected output that is off: it lists a mode, none of them current. *)
Definition mode_768 : ModeObj :=
  {| addr := 2; obj := Mode.Mode 1024 768 (60 # 1) false true |}.

Definition raw_vga1 : Raw.t :=
  Raw.Build "VGA-1" None None (Some [mode_768]).

Definition vga1 : Display.t :=
  snd (Display.update_from raw_vga1 (ScreenSettings.init "VGA-1")).

(** [disabling d]: a change of [is_enabled] is pending and its new value is
    false, the test [build_cmd] makes before it appends [--off]. *)
Definition disabling (d : Display.t) : bool :=
  (ChangeTable.is_enabled (Display.is_changed d)
   && negb (ScreenSettings.is_enabled d))%bool.

(** Two worlds to run [apply_settings] in. Each keeps the log of the
    commands it was asked to run. In the first every command succeeds; in
    the second only the bare query [xrandr] does, and a command that sets
    anything exits with status 1. *)
Definition xrandr_accepts : command -> M (list command) (list string) :=
  fun cmd log => (inr [], (log ++ [cmd])%list).

Definition xrandr_rejects : command -> M (list command) (list string) :=
  fun cmd log =>
    (match cmd with
     | [Some "xrandr"] => inr []
     | _ => inl (CalledProcessError 1 "")
     end, (log ++ [cmd])%list).

(** The parse of a report in which HDMI-1 is as in the scenario. *)
Definition parse_hdmi1 : list string -> result (list Raw.t) :=
  fun _ => inr [raw_hdmi1].

(** The scenario display with a rotation pending. *)
Definition hdmi1_rotated : Display.t :=
  snd (Display.rotation_setter (inl 90) hdmi1).

(** The calls that are assignments: every call but the refresh. *)
Definition is_setter (c : call) : bool :=
  match c with
  | UpdateSetting _ => false
  | _ => true
  end.

(** What one assignment keeps: an entry for resolution, rotation or position
    that is true stays true, and for [is_enabled] and [is_primary] the entry
    and the value flip together. *)
Definition tracks (d d' : Display.t) : Prop :=
  (ChangeTable.resolution (Display.is_changed d) = true ->
   ChangeTable.resolution (Display.is_changed d') = true)
  /\ (ChangeTable.rotation (Display.is_changed d) = true ->
      ChangeTable.rotation (Display.is_changed d') = true)
  /\ (ChangeTable.position (Display.is_changed d) = true ->
      ChangeTable.position (Display.is_changed d') = true)
  /\ xorb (ChangeTable.is_enabled (Display.is_changed d'))
          (ScreenSettings.is_enabled d')
     = xorb (ChangeTable.is_enabled (Display.is_changed d))
            (ScreenSettings.is_enabled d)
  /\ xorb (ChangeTable.is_primary (Display.is_changed d'))
          (ScreenSettings.is_primary d')
     = xorb (ChangeTable.is_primary (Display.is_changed d))
            (ScreenSettings.is_primary d).

(** The direction a display holds is in lower case. *)
Definition position_lowered (d : Display.t) : Prop :=
  match ScreenSettings.position d with
  | Some (rel, _) => lower rel = rel
  | None => True
  end.

(** The command [apply_settings] hands to [exec_cmd] before it refreshes:
    the [--auto] command under [default], else what [build_cmd] returns when
    something is pending, else none. *)
Definition settle_command (default : bool) (d : Display.t)
  : result (option command) :=
  if default then
    inr (Some [Some "xrandr"; Some "--output"; Some (ScreenSettings.name d);
               Some "--auto"])
  else if any (ChangeTable.values (Display.is_changed d))
       then Display.build_cmd d
       else inr None.

(** The refresh that ends [apply_settings], from the world [w]: the query,
    then the update from the record it returns. *)
Definition refresh {W : Type} (exec_cmd : command -> M W (list string))
    (parse_xrandr_raw : list string -> result (list Raw.t))
    (d : Display.t) (w : W) : result unit * (Display.t * W) :=
  match get_display_data exec_cmd parse_xrandr_raw (ScreenSettings.name d) w with
  | (inr raw, w') =>
      match Raw.modes raw with
      | Some _ => (inr tt, (snd (Display.update_from raw d), w'))
      | None => (inl (KeyError "modes"), (d, w'))
      end
  | (inl e, w') => (inl e, (d, w'))
  end.

(* ------------------------------------------------------------------ *)
(** ** parse_xrandr and the queries built on it *)

(** The state of the loop of [parse_xrandr]: the two lists it fills, and
    the address the next [Mode] object is created at. *)
Record parse_state : Type := {
  st_outputs : list Raw.t;
  st_modes : list ModeObj;
  st_next : nat
}.

(** [connected_outputs[-1].update({'modes': modes})]: on an empty list the
    index raises. *)
Fixpoint update_last_modes (modes : list ModeObj) (outs : list Raw.t)
  : result (list Raw.t) :=
  match outs with
  | [] => inl (IndexError "list index out of range")
  | item :: outs' =>
      match outs' with
      | [] => inr [Raw.Build (Raw.out item) (Raw.pr item) (Raw.rot item)
                     (Some modes)]
      | _ :: _ =>
          match update_last_modes modes outs' with
          | inr l => inr (item :: l)
          | inl e => inl e
          end
      end
  end.

(** [if modes: connected_outputs[-1].update({'modes': modes})] *)
Definition flush_modes (modes : list ModeObj) (outs : list Raw.t)
  : result (list Raw.t) :=
  match modes with
  | [] => inr outs
  | _ :: _ => update_last_modes modes outs
  end.

Section Parser.

(** The two compiled patterns, each as what [search] finds on a line. For
    the output pattern, the groups [out], [pr] and [rot] of the match
    ([status] is always ['connected']); for the mode pattern, the [Mode] its
    groups are converted into. *)
Variable output_search : string -> option (string * option string * option string).
Variable mode_search : string -> option Mode.t.

(** One turn of the [for] loop. *)
Definition parse_line (line : string) (st : parse_state) : result parse_state :=
  match output_search line with
  | Some (out, pr, rot) =>
      match flush_modes (st_modes st) (st_outputs st) with
      | inr outs =>
          inr {| st_outputs := (outs ++ [Raw.Build out pr rot None])%list;
                 st_modes := [];
                 st_next := st_next st |}
      | inl e => inl e
      end
  | None =>
      match mode_search line with
      | Some m =>
          inr {| st_outputs := st_outputs st;
                 st_modes := (st_modes st
                              ++ [{| addr := st_next st; obj := m |}])%list;
                 st_next := S (st_next st) |}
      | None => inr st
      end
  end.

Fixpoint parse_lines (lines : list string) (st : parse_state)
  : result parse_state :=
  match lines with
  | [] => inr st
  | line :: lines' =>
      match parse_line line st with
      | inr st' => parse_lines lines' st'
      | inl e => inl e
      end
  end.

(** [parse_xrandr(lines, True)], the first [Mode] created at [base]. *)
Definition parse_xrandr_raw (base : nat) (lines : list string)
  : result (list Raw.t) :=
  match parse_lines lines {| st_outputs := []; st_modes := []; st_next := base |} with
  | inr st => flush_modes (st_modes st) (st_outputs st)
  | inl e => inl e
  end.

(** The loop that ends [parse_xrandr(lines)]: [Display(item['out'], item)]
    for each record, in order. *)
Fixpoint build_displays (items : list Raw.t) : result (list Display.t) :=
  match items with
  | [] => inr []
  | item :: items' =>
      match Display.init (Raw.out item) item with
      | inr d =>
          match build_displays items' with
          | inr ds => inr (d :: ds)
          | inl e => inl e
          end
      | inl e => inl e
      end
  end.

(** [parse_xrandr(lines)] *)
Definition parse_xrandr (base : nat) (lines : list string)
  : result (list Display.t) :=
  match parse_xrandr_raw base lines with
  | inr items => build_displays items
  | inl e => inl e
  end.

(** What a line is to the loop. The output pattern is tried first. *)
Inductive line_kind : Type := OutputLine | ModeLine | OtherLine.

Definition kind_of (line : string) : line_kind :=
  match output_search line with
  | Some _ => OutputLine
  | None =>
      match mode_search line with
      | Some _ => ModeLine
      | None => OtherLine
      end
  end.

Definition is_other (line : string) : bool :=
  match kind_of line with OtherLine => true | _ => false end.

(** The kind of the first line the loop does not skip. *)
Fixpoint first_kind (lines : list string) : option line_kind :=
  match lines with
  | [] => None
  | line :: lines' =>
      match kind_of line with
      | OtherLine => first_kind lines'
      | k => Some k
      end
  end.

(** The output lines, as the records they open. *)
Definition opened (lines : list string) : list (string * option string * option string) :=
  flat_map (fun line => match output_search line with
                        | Some g => [g]
                        | None => []
                        end) lines.

Variable W : Type.
Variable exec_cmd : command -> M W (list string).
Variable base : nat.

Local Open Scope py_scope.

(** [connected_displays] *)
Definition connected_displays : M W (list Display.t) :=
  lines <- exec_cmd [Some "xrandr"] ;;
  lift (parse_xrandr base lines).

(** [enabled_displays] *)
Definition enabled_displays : M W (list Display.t) :=
  displays <- connected_displays ;;
  ret (filter ScreenSettings.is_enabled displays).

End Parser.

Arguments connected_displays output_search mode_search {W} exec_cmd base _.
Arguments enabled_displays output_search mode_search {W} exec_cmd base _.

(** A display as a refresh leaves it: what it holds agrees with the mode
    list it holds. *)
Definition consistent (d : Display.t) : Prop :=
  (forall m, ScreenSettings.curr_mode d = Some m ->
             In m (ScreenSettings.modes d) /\ Mode.current (obj m) = true)
  /\ ScreenSettings.is_enabled d = Display.is_some (ScreenSettings.curr_mode d)
  /\ ScreenSettings.is_connected d = true
  /\ ScreenSettings.modes d <> []
  /\ ScreenSettings.change_table d = ChangeTable.all_false.

(** The assignments that go through every check: all but a resolution
    given as [custom]. *)
Definition is_checked_setter (c : call) : bool :=
  match c with
  | UpdateSetting _ => false
  | SetResolution _ custom => negb custom
  | _ => true
  end.

(** What every display keeps: it is connected exactly when it lists a mode,
    its rotation is set, its current mode is flagged current, and the
    direction it holds is in lower case. *)
Definition kept (d : Display.t) : Prop :=
  ScreenSettings.is_connected d
  = (match ScreenSettings.modes d with [] => false | _ => true end)
  /\ (exists s, ScreenSettings.rotation d = Some s)
  /\ (forall m, ScreenSettings.curr_mode d = Some m ->
                Mode.current (obj m) = true)
  /\ position_lowered d.

(** The [Mode] objects a run of lines with no output line among them adds to
    [modes], the first created at [base]. *)
Fixpoint modes_from (mode_search : string -> option Mode.t) (base : nat)
    (lines : list string) : list ModeObj :=
  match lines with
  | [] => []
  | line :: lines' =>
      match mode_search line with
      | Some m => {| addr := base; obj := m |}
                  :: modes_from mode_search (S base) lines'
      | None => modes_from mode_search base lines'
      end
  end.

(** The groups of an output line, as a record holds them. *)
Definition groups_of (r : Raw.t) : string * option string * option string :=
  (Raw.out r, Raw.pr r, Raw.rot r).

(** How many [Mode] objects the loop creates over a run of lines. *)
Definition created
    (output_search : string -> option (string * option string * option string))
    (mode_search : string -> option Mode.t) (lines : list string) : nat :=
  length (filter (fun line =>
                    match kind_of output_search mode_search line with
                    | ModeLine => true
                    | _ => false
                    end) lines).

(** The two patterns on the lines of a sample report: what [search] finds
    on each of them, and nothing on any other line. *)
Definition sample_report : list string :=
  ["Screen 0: minimum 320 x 200, current 1920 x 1080, maximum 8192 x 8192";
   "HDMI-1 connected primary 1920x1080+0+0 (normal left inverted right x axis y axis) 527mm x 296mm";
   "   1920x1080     60.00*+  50.00    59.94";
   "   1280x720      60.00    50.00";
   "DP-1 disconnected (normal left inverted right x axis y axis)";
   "VGA-1 connected (normal left inverted right x axis y axis)";
   "   1024x768      60.00 +"].

Definition sample_output_search (line : string)
  : option (string * option string * option string) :=
  if String.eqb line (nth 1 sample_report "")
  then Some ("HDMI-1", Some " primary", None)
  else if String.eqb line (nth 5 sample_report "")
       then Some ("VGA-1", None, None)
       else None.

Definition sample_mode_search (line : string) : option Mode.t :=
  if String.eqb line (nth 2 sample_report "")
  then Some (Mode.Mode 1920 1080 (60 # 1) true true)
  else if String.eqb line (nth 3 sample_report "")
       then Some (Mode.Mode 1280 720 (60 # 1) false false)
       else if String.eqb line (nth 6 sample_report "")
            then Some (Mode.Mode 1024 768 (60 # 1) false true)
            else None.

(** A world whose [xrandr] prints the sample report. *)
Definition xrandr_reports : command -> M (list command) (list string) :=
  fun cmd log => (inr sample_report, (log ++ [cmd])%list).

(** The displays of the sample report. *)
Definition sample_displays : list Display.t :=
  match parse_xrandr sample_output_search sample_mode_search 10 sample_report with
  | inr ds => ds
  | inl _ => []
  end.

(* ------------------------------------------------------------------ *)
(** * Properties *)

(** ** Comparisons *)

Lemma res_eqb_eq (a b : Z * Z) : res_eqb a b = true <-> a = b.
Proof.
  destruct a as [a1 a2], b as [b1 b2]; unfold res_eqb; cbn.
  rewrite andb_true_iff, !Z.eqb_eq. split.
  - intros [-> ->]; reflexivity.
  - intros H; injection H; auto.
Qed.

Lemma res_eqb_refl (a : Z * Z) : res_eqb a a = true.
Proof. apply res_eqb_eq; reflexivity. Qed.

Lemma res_eqb_neq (a b : Z * Z) : res_eqb a b = false <-> a <> b.
Proof.
  rewrite <- res_eqb_eq. destruct (res_eqb a b); split; congruence.
Qed.

Lemma str_pair_eqb_eq (a b : string * string) :
  str_pair_eqb a b = true <-> a = b.
Proof.
  destruct a as [a1 a2], b as [b1 b2]; unfold str_pair_eqb; cbn.
  rewrite andb_true_iff, !String.eqb_eq. split.
  - intros [-> ->]; reflexivity.
  - intros H; injection H; auto.
Qed.

Lemma opt_eqb_eq {A : Type} (eqb : A -> A -> bool) :
  (forall x y, eqb x y = true <-> x = y) ->
  forall a b, opt_eqb eqb a b = true <-> a = b.
Proof.
  intros Heq [x|] [y|]; cbn; try (split; congruence).
  rewrite Heq. split; congruence.
Qed.

Lemma pos_eqb_eq (a b : option (string * string)) :
  opt_eqb str_pair_eqb a b = true <-> a = b.
Proof. apply opt_eqb_eq, str_pair_eqb_eq. Qed.

Lemma rot_eqb_eq (a b : option string) :
  opt_eqb String.eqb a b = true <-> a = b.
Proof. apply opt_eqb_eq, String.eqb_eq. Qed.

Lemma res_in_In (r : Z * Z) (l : list (Z * Z)) : res_in r l = true <-> In r l.
Proof.
  unfold res_in. rewrite existsb_exists. split.
  - intros [x [Hx Hr]]. apply res_eqb_eq in Hr. subst; assumption.
  - intros H. exists r. split; [assumption | apply res_eqb_refl].
Qed.

Lemma res_in_not_In (r : Z * Z) (l : list (Z * Z)) :
  res_in r l = false <-> ~ In r l.
Proof.
  rewrite <- res_in_In. destruct (res_in r l); split; congruence.
Qed.

(** ** Lowering *)

Lemma lower_ascii_idem (c : ascii) : lower_ascii (lower_ascii c) = lower_ascii c.
Proof.
  destruct c as [[] [] [] [] [] [] [] []]; reflexivity.
Qed.

Lemma lower_idem (s : string) : lower (lower s) = lower s.
Proof.
  induction s as [|c s IH]; cbn; [reflexivity|].
  rewrite lower_ascii_idem, IH. reflexivity.
Qed.

(** ** Reading a setter *)

Ltac unfold_setters :=
  unfold Display.position_setter, Display.is_enabled_setter,
    Display.is_primary_setter, Display.resolution_setter,
    Display.rotation_setter, Display.check_resolution,
    Display.reset_change_table.

Ltac unfold_monad :=
  unfold bind, get, modify, when, ret, raise, lift.

Ltac run :=
  unfold_setters;
  unfold Display.is_changed, Display.current_mode, Display.available_modes in *;
  unfold_monad; cbn.

(** A record is its fields: what makes "the call changed nothing" an
    equation between objects. *)
Lemma settings_eta (d : ScreenSettings.t) :
  ScreenSettings.Build (ScreenSettings.name d) (ScreenSettings.resolution d)
    (ScreenSettings.is_primary d) (ScreenSettings.is_enabled d)
    (ScreenSettings.rotation d) (ScreenSettings.position d)
    (ScreenSettings.is_connected d) (ScreenSettings.curr_mode d)
    (ScreenSettings.modes d) (ScreenSettings.change_table d) = d.
Proof. destruct d; reflexivity. Qed.

(** ** Assigning a property its current value *)

Lemma position_setter_same (d : Display.t) :
  Display.position_setter (ScreenSettings.position d) d = (inr tt, d).
Proof.
  run. replace (opt_eqb str_pair_eqb _ _) with true; [reflexivity|].
  symmetry; apply pos_eqb_eq; reflexivity.
Qed.

Lemma is_enabled_setter_same (d : Display.t) :
  Display.is_enabled_setter (ScreenSettings.is_enabled d) d = (inr tt, d).
Proof. run. rewrite eqb_reflx. reflexivity. Qed.

Lemma is_primary_setter_same (d : Display.t) :
  Display.is_primary_setter (ScreenSettings.is_primary d) d = (inr tt, d).
Proof. run. rewrite eqb_reflx. reflexivity. Qed.

Lemma rotation_setter_same (d : Display.t) (s : string) :
  ScreenSettings.rotation d = Some s ->
  Display.rotation_setter (inr s) d = (inr tt, d).
Proof.
  intros H. run. rewrite H. cbn. rewrite String.eqb_refl. reflexivity.
Qed.

Lemma resolution_setter_off (d : Display.t) (new_res : Z * Z) (custom : bool) :
  ScreenSettings.is_enabled d = false ->
  ChangeTable.is_enabled (Display.is_changed d) = false ->
  Display.resolution_setter new_res custom d = (inl DisplayOffError, d).
Proof.
  intros He Hc. run. rewrite He, Hc. reflexivity.
Qed.

Lemma resolution_setter_same (d : Display.t) (custom : bool) :
  (ScreenSettings.is_enabled d = true
   \/ ChangeTable.is_enabled (Display.is_changed d) = true) ->
  Display.resolution_setter (ScreenSettings.resolution d) custom d = (inr tt, d).
Proof.
  intros H. run. rewrite res_eqb_refl. cbn.
  destruct H as [-> | ->]; cbn; rewrite ?andb_false_r; reflexivity.
Qed.

(** C4, as the code has it: assigning [position], [is_enabled], [is_primary]
    or [rotation] its current value returns without an error and leaves the
    object, change table included, exactly as it was, in every state; for
    [resolution] this holds when the display is enabled or a change of
    [is_enabled] is pending, and otherwise the assignment raises "The Screen
    is off" before any comparison, the object again unchanged. *)
Theorem noop_assignment_is_silent_unless_screen_off :
  forall d : Display.t,
    Display.position_setter (ScreenSettings.position d) d = (inr tt, d)
    /\ Display.is_enabled_setter (ScreenSettings.is_enabled d) d = (inr tt, d)
    /\ Display.is_primary_setter (ScreenSettings.is_primary d) d = (inr tt, d)
    /\ (forall s, ScreenSettings.rotation d = Some s ->
                  Display.rotation_setter (inr s) d = (inr tt, d))
    /\ (forall custom,
          (ScreenSettings.is_enabled d = true
           \/ ChangeTable.is_enabled (Display.is_changed d) = true) ->
          Display.resolution_setter (ScreenSettings.resolution d) custom d
          = (inr tt, d))
    /\ (forall custom,
          ScreenSettings.is_enabled d = false ->
          ChangeTable.is_enabled (Display.is_changed d) = false ->
          Display.resolution_setter (ScreenSettings.resolution d) custom d
          = (inl DisplayOffError, d)).
Proof.
  intros d. repeat split.
  - apply position_setter_same.
  - apply is_enabled_setter_same.
  - apply is_primary_setter_same.
  - intros s; apply rotation_setter_same.
  - intros custom; apply resolution_setter_same.
  - intros custom; apply resolution_setter_off.
Qed.

(** On the scenario display, enabled and rotated "normal", the rotation and
    resolution branches of the theorem apply; on the display that is off,
    the last one does. *)
Lemma noop_assignment_witness :
  Display.rotation_setter (inr "normal") hdmi1 = (inr tt, hdmi1)
  /\ Display.resolution_setter (1920, 1080) false hdmi1 = (inr tt, hdmi1)
  /\ Display.resolution_setter (0, 0) false vga1 = (inl DisplayOffError, vga1).
Proof.
  destruct (noop_assignment_is_silent_unless_screen_off hdmi1)
    as (_ & _ & _ & Hrot & Hres & _).
  destruct (noop_assignment_is_silent_unless_screen_off vga1)
    as (_ & _ & _ & _ & _ & Hoff).
  split; [| split].
  - apply Hrot. reflexivity.
  - apply (Hres false). left. reflexivity.
  - apply (Hoff false); reflexivity.
Defined.

(** C4 as stated fails: the display VGA-1 is off with nothing pending, its
    stored resolution is [(0, 0)], and assigning [(0, 0)] raises. *)
Lemma noop_resolution_on_off_display_raises :
  ScreenSettings.resolution vga1 = (0, 0)
  /\ ScreenSettings.is_enabled vga1 = false
  /\ fst (Display.resolution_setter (ScreenSettings.resolution vga1) false vga1)
     = inl (ValueError "The Screen is off" []).
Proof. repeat split. Qed.

(** ** Disabling *)

Lemma build_cmd_disabling (d : Display.t) :
  disabling d = true ->
  Display.build_cmd d
  = inr (Some (map Some ["xrandr"; "--output"; ScreenSettings.name d; "--off"])).
Proof.
  unfold disabling, Display.build_cmd. intros H. rewrite H.
  apply andb_true_iff in H. destruct H as [H _].
  unfold any, ChangeTable.values. cbn. rewrite H, !orb_true_r. reflexivity.
Qed.

(** C5, as the code has it: on a display that is enabled with no change of
    [is_enabled] itself pending, and whatever else is pending (every other
    field and every other entry of the change table is arbitrary), assigning
    [is_enabled = False] succeeds and [build_cmd] then returns exactly
    [xrandr --output <name> --off]. *)
Theorem disabling_dominates :
  forall d : Display.t,
    ScreenSettings.is_enabled d = true ->
    ChangeTable.is_enabled (Display.is_changed d) = false ->
    fst (Display.is_enabled_setter false d) = inr tt
    /\ Display.build_cmd (snd (Display.is_enabled_setter false d))
       = inr (Some (map Some
                      ["xrandr"; "--output"; ScreenSettings.name d; "--off"])).
Proof.
  intros d He Hc. split.
  - run. rewrite He. reflexivity.
  - rewrite build_cmd_disabling.
    + run. rewrite He. reflexivity.
    + unfold disabling. destruct d as [? ? ? ? ? ? ? ? ? []].
      cbn in He, Hc. subst. reflexivity.
Qed.

(** The scenario display with a rotation, the primary mark and a position
    pending, then disabled. *)
Lemma disabling_dominates_witness :
  let d := run_calls [SetRotation (inl 90); SetPrimary true;
                      SetPosition (Some ("leftof", "VGA-1"))] hdmi1 in
  Display.build_cmd (snd (Display.is_enabled_setter false d))
  = inr (Some (map Some ["xrandr"; "--output"; "HDMI-1"; "--off"])).
Proof.
  cbv zeta.
  exact (proj2 (disabling_dominates
                  (run_calls [SetRotation (inl 90); SetPrimary true;
                              SetPosition (Some ("leftof", "VGA-1"))] hdmi1)
                  eq_refl eq_refl)).
Defined.

(** C5 as stated fails on a display that is enabled by a change still
    pending. VGA-1 is off when built; switched on and rotated, it is
    enabled. Switching it off again flips the entry for [is_enabled] back to
    false, so [build_cmd] does not take the [--off] branch: it returns the
    command of the rotation. *)
Lemma cancelled_switch_on_does_not_build_off :
  Display.init "VGA-1" raw_vga1 = inr vga1
  /\ ScreenSettings.is_enabled
       (run_calls [SetEnabled true; SetRotation (inl 90)] vga1) = true
  /\ fst (Display.is_enabled_setter false
            (run_calls [SetEnabled true; SetRotation (inl 90)] vga1)) = inr tt
  /\ Display.build_cmd
       (snd (Display.is_enabled_setter false
               (run_calls [SetEnabled true; SetRotation (inl 90)] vga1)))
     = inr (Some (map Some ["xrandr"; "--output"; "VGA-1"; "--auto";
                            "--rotate"; "right"])).
Proof. repeat split. Qed.

(** ** The rotation scenario *)

(** C6: the display "HDMI-1" built from one mode 1920x1080 at 60.0, current
    and preferred, not primary, rotation "normal"; after [rotation = 90],
    [build_cmd] returns [xrandr --output HDMI-1 --auto --rotate right]. *)
Theorem rotate_90_scenario :
  Display.init "HDMI-1" raw_hdmi1 = inr hdmi1
  /\ ScreenSettings.is_primary hdmi1 = false
  /\ ScreenSettings.rotation hdmi1 = Some "normal"
  /\ fst (Display.rotation_setter (inl 90) hdmi1) = inr tt
  /\ ScreenSettings.rotation (snd (Display.rotation_setter (inl 90) hdmi1))
     = Some "right"
  /\ Display.build_cmd (snd (Display.rotation_setter (inl 90) hdmi1))
     = inr (Some (map Some ["xrandr"; "--output"; "HDMI-1"; "--auto";
                            "--rotate"; "right"])).
Proof. repeat split. Qed.

(** ** Setting a resolution *)

Lemma DisplayOffError_neq_Unsupported (r : Z * Z) :
  UnsupportedResolutionError r <> DisplayOffError.
Proof. discriminate. Qed.

(** What [resolution_setter] does, case by case. *)
Lemma resolution_setter_cases (d : Display.t) (new_res : Z * Z) (custom : bool) :
  Display.resolution_setter new_res custom d =
  if (negb (ScreenSettings.is_enabled d)
      && negb (ChangeTable.is_enabled (Display.is_changed d)))%bool
  then (inl DisplayOffError, d)
  else if res_eqb new_res (ScreenSettings.resolution d) then (inr tt, d)
  else if (negb custom
           && negb (res_in new_res (Display.available_resolutions d)))%bool
  then (inl (UnsupportedResolutionError new_res), d)
  else (inr tt,
        ScreenSettings.with_change_table (ChangeTable.set_resolution true)
          (ScreenSettings.with_resolution new_res d)).
Proof.
  run.
  destruct (negb (ScreenSettings.is_enabled d)
            && negb (ChangeTable.is_enabled (ScreenSettings.change_table d)))%bool;
    [reflexivity|].
  destruct (res_eqb new_res (ScreenSettings.resolution d)); cbn; [reflexivity|].
  destruct custom; cbn; [reflexivity|].
  destruct (res_in new_res (Display.available_resolutions d)); reflexivity.
Qed.

(** C8: on a display whose [is_enabled] is false and whose change-table
    entry for [is_enabled] is false, assigning a resolution raises "The
    Screen is off" and leaves the object as it was; when that entry is true,
    the assignment does not raise that error. *)
Theorem resolution_on_off_display :
  forall (d : Display.t) (new_res : Z * Z) (custom : bool),
    (ScreenSettings.is_enabled d = false ->
     ChangeTable.is_enabled (Display.is_changed d) = false ->
     Display.resolution_setter new_res custom d = (inl DisplayOffError, d))
    /\ (ChangeTable.is_enabled (Display.is_changed d) = true ->
        fst (Display.resolution_setter new_res custom d) <> inl DisplayOffError).
Proof.
  intros d new_res custom. split.
  - apply resolution_setter_off.
  - intros Hc. rewrite resolution_setter_cases, Hc, andb_false_r.
    destruct (res_eqb _ _); [discriminate|].
    destruct (_ && _)%bool; cbn; [|discriminate].
    intros H. apply (DisplayOffError_neq_Unsupported new_res). congruence.
Qed.

(** VGA-1 is off: a listed resolution is refused; once [is_enabled = True]
    is pending, it is stored. *)
Lemma resolution_on_off_display_witness :
  Display.resolution_setter (1024, 768) false vga1 = (inl DisplayOffError, vga1)
  /\ fst (Display.resolution_setter (1024, 768) false
            (snd (Display.is_enabled_setter true vga1)))
     <> inl DisplayOffError.
Proof.
  split.
  - apply (proj1 (resolution_on_off_display vga1 (1024, 768) false));
      reflexivity.
  - apply (proj2 (resolution_on_off_display
                    (snd (Display.is_enabled_setter true vga1))
                    (1024, 768) false)).
    reflexivity.
Defined.

(** C7, as the code has it: on an enabled display, assigning (without
    [custom]) a resolution that is not among the resolutions of its modes
    and is not the stored resolution raises "Requested resolution is not
    supported" and leaves the object as it was: the stored resolution and
    the change-table entry for resolution are what they were. *)
Theorem unlisted_resolution_is_refused :
  forall (d : Display.t) (new_res : Z * Z),
    ScreenSettings.is_enabled d = true ->
    ~ In new_res (Display.available_resolutions d) ->
    new_res <> ScreenSettings.resolution d ->
    Display.resolution_setter new_res false d
    = (inl (UnsupportedResolutionError new_res), d)
    /\ ScreenSettings.resolution (snd (Display.resolution_setter new_res false d))
       = ScreenSettings.resolution d
    /\ ChangeTable.resolution
         (Display.is_changed (snd (Display.resolution_setter new_res false d)))
       = ChangeTable.resolution (Display.is_changed d).
Proof.
  intros d new_res He Hin Hne.
  assert (E : Display.resolution_setter new_res false d
              = (inl (UnsupportedResolutionError new_res), d)).
  { rewrite resolution_setter_cases, He. cbn.
    apply res_eqb_neq in Hne. rewrite Hne.
    apply res_in_not_In in Hin. rewrite Hin. reflexivity. }
  rewrite E. repeat split.
Qed.

(** HDMI-1 lists 1920x1080 only and holds it: 800x600 is refused. *)
Lemma unlisted_resolution_witness :
  Display.resolution_setter (800, 600) false hdmi1
  = (inl (UnsupportedResolutionError (800, 600)), hdmi1).
Proof.
  apply (unlisted_resolution_is_refused hdmi1 (800, 600)).
  - reflexivity.
  - cbn. intros [H | []]. discriminate H.
  - discriminate.
Defined.

(** C7 as stated fails where the requested resolution is the stored one.
    HDMI-1, enabled, holds 1234x567 once it was stored with [custom]; VGA-1,
    switched on but not yet applied, still holds the [(0, 0)] it was created
    with. Neither resolution is listed, and assigning it again raises
    nothing. *)
Lemma stored_unlisted_resolution_is_not_refused :
  (let d := snd (Display.resolution_setter (1234, 567) true hdmi1) in
   ScreenSettings.is_enabled d = true
   /\ res_in (1234, 567) (Display.available_resolutions d) = false
   /\ Display.resolution_setter (1234, 567) false d = (inr tt, d))
  /\
  (let d := snd (Display.is_enabled_setter true vga1) in
   ScreenSettings.is_enabled d = true
   /\ res_in (0, 0) (Display.available_resolutions d) = false
   /\ ChangeTable.resolution (Display.is_changed d) = false
   /\ Display.resolution_setter (0, 0) false d = (inr tt, d)).
Proof. cbv zeta. repeat split. Qed.

(** ** Refreshing *)

Lemma scan_current_nonempty (l : list ModeObj) (m : ModeObj) (curr : option ModeObj) :
  l <> [] -> Display.scan_current l curr = Some m -> In m l.
Proof.
  revert curr. induction l as [|x l IH]; intros curr Hne H; [congruence|].
  cbn in H. destruct (Mode.current (obj x)).
  - left. congruence.
  - right. destruct l as [|y l'].
    + cbn in H. discriminate.
    + apply (IH None); [discriminate | assumption].
Qed.

Lemma update_from_modes (raw : Raw.t) (l : list ModeObj) (d : Display.t) :
  Raw.modes raw = Some l ->
  Display.update_from raw d =
  (inr tt,
   snd (Display.update_from raw d))
  /\ ScreenSettings.modes (snd (Display.update_from raw d)) = l
  /\ ScreenSettings.curr_mode (snd (Display.update_from raw d))
     = Display.scan_current l (ScreenSettings.curr_mode d)
  /\ ScreenSettings.change_table (snd (Display.update_from raw d))
     = ChangeTable.all_false
  /\ ScreenSettings.position (snd (Display.update_from raw d))
     = ScreenSettings.position d.
Proof.
  intros Hm. unfold Display.update_from. rewrite Hm.
  unfold Display.reset_change_table. unfold_monad. cbn.
  destruct (truthy (Raw.rot raw)); cbn;
    destruct (Display.scan_current l (ScreenSettings.curr_mode d)); cbn;
    repeat split.
Qed.

Lemma update_from_no_modes (raw : Raw.t) (d : Display.t) :
  Raw.modes raw = None ->
  Display.update_from raw d = (inl (KeyError "modes"), d).
Proof.
  intros Hm. unfold Display.update_from. rewrite Hm. reflexivity.
Qed.

(** Where the record lists at least one mode, the current mode a refresh
    leaves, if any, is one of the modes it installed. *)
Lemma update_from_current_in_modes (raw : Raw.t) (l : list ModeObj)
      (d : Display.t) (m : ModeObj) :
  Raw.modes raw = Some l -> l <> [] ->
  ScreenSettings.curr_mode (snd (Display.update_from raw d)) = Some m ->
  In m (ScreenSettings.modes (snd (Display.update_from raw d))).
Proof.
  intros Hm Hne Hc.
  destruct (update_from_modes raw l d Hm) as (_ & Hmodes & Hcurr & _).
  rewrite Hmodes. rewrite Hcurr in Hc.
  eapply scan_current_nonempty; eassumption.
Qed.

(** C3 fails on a record whose mode list is empty: the loop body never runs,
    [curr_mode] keeps the mode object of the previous query (address 1),
    [modes] is the new, empty list, and the display passes for enabled while
    it is reported as not connected. *)
Theorem refresh_with_no_modes_keeps_stale_current_mode :
  let d := snd (Display.update_from
                  (Raw.Build "HDMI-1" None (Some "normal") (Some [])) hdmi1) in
  fst (Display.update_from
         (Raw.Build "HDMI-1" None (Some "normal") (Some [])) hdmi1) = inr tt
  /\ ScreenSettings.modes d = []
  /\ ScreenSettings.curr_mode d = Some mode_1080
  /\ ScreenSettings.curr_mode hdmi1 = Some mode_1080
  /\ ~ In mode_1080 (ScreenSettings.modes d)
  /\ ScreenSettings.is_enabled d = true
  /\ ScreenSettings.is_connected d = false.
Proof. cbv zeta. repeat split. intros []. Qed.

(** ** The change table under the setters *)

Ltac case_ifs :=
  repeat match goal with
         | |- context [if ?b then _ else _] => destruct b eqn:?; cbn
         | |- context [match ?x with inl _ => _ | inr _ => _ end] =>
             destruct x eqn:?; cbn
         | |- context [match ?x with Some _ => _ | None => _ end] =>
             destruct x eqn:?; cbn
         | |- context [let (_, _) := ?x in _] => destruct x eqn:?; cbn
         end.

Lemma resolution_setter_marks (d : Display.t) (new_res : Z * Z) (custom : bool) :
  ScreenSettings.resolution (snd (Display.resolution_setter new_res custom d))
  <> ScreenSettings.resolution d ->
  ChangeTable.resolution
    (Display.is_changed (snd (Display.resolution_setter new_res custom d)))
  = true.
Proof.
  rewrite resolution_setter_cases. case_ifs; intros H; try reflexivity;
    exfalso; apply H; reflexivity.
Qed.

Lemma rotation_setter_marks (d : Display.t) (direction : Z + string) :
  ScreenSettings.rotation (snd (Display.rotation_setter direction d))
  <> ScreenSettings.rotation d ->
  ChangeTable.rotation
    (Display.is_changed (snd (Display.rotation_setter direction d))) = true.
Proof.
  run. destruct direction as [n | s]; cbn; case_ifs; intros H;
    try reflexivity; exfalso; apply H; reflexivity.
Qed.

Lemma position_setter_marks (d : Display.t) (new_pos : option (string * string)) :
  ScreenSettings.position (snd (Display.position_setter new_pos d))
  <> ScreenSettings.position d ->
  ChangeTable.position
    (Display.is_changed (snd (Display.position_setter new_pos d))) = true.
Proof.
  run. destruct new_pos as [[rel rel_to] |]; cbn; case_ifs; intros H;
    try reflexivity; exfalso; apply H; reflexivity.
Qed.

Lemma is_enabled_setter_flips (d : Display.t) (enable : bool) :
  ScreenSettings.is_enabled (snd (Display.is_enabled_setter enable d))
  <> ScreenSettings.is_enabled d ->
  ChangeTable.is_enabled
    (Display.is_changed (snd (Display.is_enabled_setter enable d)))
  = negb (ChangeTable.is_enabled (Display.is_changed d)).
Proof.
  run. case_ifs; intros H; try reflexivity; exfalso; apply H; reflexivity.
Qed.

Lemma is_primary_setter_flips (d : Display.t) (is_primary : bool) :
  ScreenSettings.is_primary (snd (Display.is_primary_setter is_primary d))
  <> ScreenSettings.is_primary d ->
  ChangeTable.is_primary
    (Display.is_changed (snd (Display.is_primary_setter is_primary d)))
  = negb (ChangeTable.is_primary (Display.is_changed d)).
Proof.
  run. case_ifs; intros H; try reflexivity; exfalso; apply H; reflexivity.
Qed.

Lemma tracks_refl (d : Display.t) : tracks d d.
Proof. unfold tracks; tauto. Qed.

Lemma tracks_trans (d1 d2 d3 : Display.t) :
  tracks d1 d2 -> tracks d2 d3 -> tracks d1 d3.
Proof.
  unfold tracks. intros (A1 & A2 & A3 & A4 & A5) (B1 & B2 & B3 & B4 & B5).
  repeat split; auto; congruence.
Qed.

Lemma setter_tracks (c : call) (d : Display.t) :
  is_setter c = true -> tracks d (snd (run_call c d)).
Proof.
  destruct c as [p | b | b | r custom | a | raw]; intros Hs;
    try discriminate Hs; unfold run_call, tracks.
  - run. destruct p as [[rel rel_to] |]; cbn; case_ifs; tauto.
  - run. case_ifs; repeat split; auto;
      destruct (ChangeTable.is_enabled _), (ScreenSettings.is_enabled d);
      reflexivity.
  - run. case_ifs; repeat split; auto;
      destruct (ChangeTable.is_primary _), (ScreenSettings.is_primary d);
      reflexivity.
  - rewrite resolution_setter_cases. case_ifs; tauto.
  - run. destruct a as [n | s]; cbn; case_ifs; tauto.
Qed.

Lemma setters_track (cs : list call) (d : Display.t) :
  forallb is_setter cs = true -> tracks d (run_calls cs d).
Proof.
  revert d. induction cs as [|c cs IH]; intros d H; cbn.
  - apply tracks_refl.
  - cbn in H. apply andb_true_iff in H. destruct H as [Hc Hcs].
    eapply tracks_trans; [apply setter_tracks; exact Hc | apply IH; exact Hcs].
Qed.

(** C2, as the code has it. An assignment to [resolution], [rotation] or
    [position] that changes the stored value leaves the entry of the change
    table true, and further assignments keep it true. An assignment to
    [is_enabled] or [is_primary] that changes the stored value flips the
    entry; so after any run of assignments from a point where the entry is
    false, the entry is true exactly when the stored value differs from its
    value at that point. *)
Theorem change_table_tracks_assignments :
  (forall (d : Display.t) (new_res : Z * Z) (custom : bool),
      ScreenSettings.resolution (snd (Display.resolution_setter new_res custom d))
      <> ScreenSettings.resolution d ->
      ChangeTable.resolution
        (Display.is_changed (snd (Display.resolution_setter new_res custom d)))
      = true)
  /\ (forall (d : Display.t) (direction : Z + string),
         ScreenSettings.rotation (snd (Display.rotation_setter direction d))
         <> ScreenSettings.rotation d ->
         ChangeTable.rotation
           (Display.is_changed (snd (Display.rotation_setter direction d)))
         = true)
  /\ (forall (d : Display.t) (new_pos : option (string * string)),
         ScreenSettings.position (snd (Display.position_setter new_pos d))
         <> ScreenSettings.position d ->
         ChangeTable.position
           (Display.is_changed (snd (Display.position_setter new_pos d)))
         = true)
  /\ (forall (d : Display.t) (enable : bool),
         ScreenSettings.is_enabled (snd (Display.is_enabled_setter enable d))
         <> ScreenSettings.is_enabled d ->
         ChangeTable.is_enabled
           (Display.is_changed (snd (Display.is_enabled_setter enable d)))
         = negb (ChangeTable.is_enabled (Display.is_changed d)))
  /\ (forall (d : Display.t) (is_primary : bool),
         ScreenSettings.is_primary (snd (Display.is_primary_setter is_primary d))
         <> ScreenSettings.is_primary d ->
         ChangeTable.is_primary
           (Display.is_changed (snd (Display.is_primary_setter is_primary d)))
         = negb (ChangeTable.is_primary (Display.is_changed d)))
  /\ (forall (d : Display.t) (cs : list call),
         forallb is_setter cs = true ->
         (ChangeTable.resolution (Display.is_changed d) = true ->
          ChangeTable.resolution (Display.is_changed (run_calls cs d)) = true)
         /\ (ChangeTable.rotation (Display.is_changed d) = true ->
             ChangeTable.rotation (Display.is_changed (run_calls cs d)) = true)
         /\ (ChangeTable.position (Display.is_changed d) = true ->
             ChangeTable.position (Display.is_changed (run_calls cs d)) = true)
         /\ (ChangeTable.is_enabled (Display.is_changed d) = false ->
             ChangeTable.is_enabled (Display.is_changed (run_calls cs d))
             = xorb (ScreenSettings.is_enabled (run_calls cs d))
                    (ScreenSettings.is_enabled d))
         /\ (ChangeTable.is_primary (Display.is_changed d) = false ->
             ChangeTable.is_primary (Display.is_changed (run_calls cs d))
             = xorb (ScreenSettings.is_primary (run_calls cs d))
                    (ScreenSettings.is_primary d))).
Proof.
  split; [exact resolution_setter_marks|].
  split; [exact rotation_setter_marks|].
  split; [exact position_setter_marks|].
  split; [exact is_enabled_setter_flips|].
  split; [exact is_primary_setter_flips|].
  intros d cs Hcs.
  destruct (setters_track cs d Hcs) as (H1 & H2 & H3 & H4 & H5).
  repeat split; auto.
  - intros H. rewrite H in H4.
    destruct (ChangeTable.is_enabled (Display.is_changed (run_calls cs d))),
             (ScreenSettings.is_enabled (run_calls cs d)),
             (ScreenSettings.is_enabled d); cbn in *; congruence.
  - intros H. rewrite H in H5.
    destruct (ChangeTable.is_primary (Display.is_changed (run_calls cs d))),
             (ScreenSettings.is_primary (run_calls cs d)),
             (ScreenSettings.is_primary d); cbn in *; congruence.
Qed.

(** On HDMI-1: a rotation to 90 marks the entry; switching the display off
    flips its entry to true; and after off, on, off with a rotation in
    between, the rotation entry is still true and the [is_enabled] entry is
    true, the value differing from the one the run started with. *)
Lemma change_table_tracks_witness :
  ChangeTable.rotation
    (Display.is_changed (snd (Display.rotation_setter (inl 90) hdmi1))) = true
  /\ ChangeTable.is_enabled
       (Display.is_changed (snd (Display.is_enabled_setter false hdmi1)))
     = negb (ChangeTable.is_enabled (Display.is_changed hdmi1))
  /\ ChangeTable.rotation
       (Display.is_changed
          (run_calls [SetEnabled false; SetEnabled true; SetEnabled false]
             hdmi1_rotated)) = true
  /\ ChangeTable.is_enabled
       (Display.is_changed
          (run_calls [SetEnabled false; SetEnabled true; SetEnabled false]
             hdmi1_rotated))
     = xorb (ScreenSettings.is_enabled
               (run_calls [SetEnabled false; SetEnabled true; SetEnabled false]
                  hdmi1_rotated))
            (ScreenSettings.is_enabled hdmi1_rotated).
Proof.
  destruct change_table_tracks_assignments as (_ & Hrot & _ & Hen & _ & Hrun).
  destruct (Hrun hdmi1_rotated
              [SetEnabled false; SetEnabled true; SetEnabled false] eq_refl)
    as (_ & Hrot' & _ & Hen' & _).
  split; [| split; [| split]].
  - apply Hrot. discriminate.
  - apply Hen. discriminate.
  - apply Hrot'. reflexivity.
  - apply Hen'. reflexivity.
Defined.

(** C2 as stated fails for [is_enabled] (and, in the same way, for
    [is_primary]): on HDMI-1 switched off, [is_enabled = True] changes the
    stored value from false to true, and the entry is false after the
    call. *)
Lemma second_toggle_clears_entry :
  ScreenSettings.is_enabled (snd (Display.is_enabled_setter false hdmi1)) = false
  /\ ScreenSettings.is_enabled
       (snd (Display.is_enabled_setter true
               (snd (Display.is_enabled_setter false hdmi1)))) = true
  /\ ChangeTable.is_enabled
       (Display.is_changed
          (snd (Display.is_enabled_setter true
                  (snd (Display.is_enabled_setter false hdmi1))))) = false.
Proof. repeat split. Qed.

(** ** The displays a program can hold *)

Lemma init_inv (name : string) (raw : Raw.t) (d : Display.t) :
  Display.init name raw = inr d ->
  exists l, Raw.modes raw = Some l
            /\ d = snd (Display.update_from raw (ScreenSettings.init name)).
Proof.
  unfold Display.init. intros H.
  destruct (Raw.modes raw) as [l|] eqn:Hm.
  - exists l. split; [reflexivity|].
    destruct (update_from_modes raw l (ScreenSettings.init name) Hm) as (E & _).
    rewrite E in H. cbn in H. congruence.
  - rewrite (update_from_no_modes raw (ScreenSettings.init name) Hm) in H.
    discriminate.
Qed.

Lemma update_from_position (raw : Raw.t) (d : Display.t) :
  ScreenSettings.position (snd (Display.update_from raw d))
  = ScreenSettings.position d.
Proof.
  destruct (Raw.modes raw) as [l|] eqn:Hm.
  - apply (update_from_modes raw l d Hm).
  - rewrite (update_from_no_modes raw d Hm). reflexivity.
Qed.

Lemma run_call_position_lowered (c : call) (d : Display.t) :
  position_lowered d -> position_lowered (snd (run_call c d)).
Proof.
  unfold position_lowered. intros H.
  destruct c as [p | b | b | r custom | a | raw]; unfold run_call.
  - run. destruct p as [[rel rel_to] |]; cbn; case_ifs;
      try exact H; try apply lower_idem.
  - run. case_ifs; exact H.
  - run. case_ifs; exact H.
  - rewrite resolution_setter_cases. case_ifs; exact H.
  - run. destruct a as [n | s]; cbn; case_ifs; exact H.
  - rewrite update_from_position. exact H.
Qed.

Lemma reachable_position_lowered (d : Display.t) :
  reachable d -> position_lowered d.
Proof.
  induction 1 as [name raw d Hinit | c d _ IH].
  - apply init_inv in Hinit. destruct Hinit as (l & _ & ->).
    unfold position_lowered. rewrite update_from_position. exact I.
  - apply run_call_position_lowered, IH.
Qed.

(** ** What [build_cmd] appends *)

Lemma build_cmd_position (d : Display.t) :
  disabling d = false ->
  ChangeTable.position (Display.is_changed d) = true ->
  exists pre,
    Display.build_cmd d =
    match PositionType.getitem (option_map fst (ScreenSettings.position d)) with
    | inr flag =>
        inr (Some (pre ++ [Some flag;
                           option_map snd (ScreenSettings.position d)])%list)
    | inl e => inl e
    end.
Proof.
  unfold disabling, Display.build_cmd. intros Hd Hp. rewrite Hd, Hp.
  unfold any, ChangeTable.values. cbn. rewrite Hp, !orb_true_r.
  eexists. reflexivity.
Qed.

Lemma build_cmd_rotation (d : Display.t) :
  disabling d = false ->
  ChangeTable.rotation (Display.is_changed d) = true ->
  (ChangeTable.position (Display.is_changed d) = false
   \/ exists flag,
       PositionType.getitem (option_map fst (ScreenSettings.position d))
       = inr flag) ->
  exists pre post,
    Display.build_cmd d
    = inr (Some (pre ++ [Some "--rotate"; ScreenSettings.rotation d] ++ post)%list).
Proof.
  unfold disabling, Display.build_cmd. intros Hd Hr Hp. rewrite Hd, Hr.
  unfold any, ChangeTable.values. cbn. rewrite Hr, !orb_true_r.
  destruct Hp as [Hp | [flag Hp]].
  - rewrite Hp. eexists. exists []. reflexivity.
  - rewrite Hp.
    destruct (ChangeTable.position (Display.is_changed d)).
    + eexists. eexists. rewrite <- app_assoc. reflexivity.
    + eexists. exists []. reflexivity.
Qed.

(** ** Positions *)

(** C9: on any display a program can hold, with no switch-off pending,
    [position = ("LeftOf", "HDMI-1")] succeeds and stores the direction in
    lower case, unchecked; [build_cmd] then succeeds and its last two tokens
    are [--left-of] and [HDMI-1]. *)
Theorem left_of_scenario :
  forall d : Display.t,
    reachable d ->
    disabling d = false ->
    fst (Display.position_setter (Some ("LeftOf", "HDMI-1")) d) = inr tt
    /\ ScreenSettings.position
         (snd (Display.position_setter (Some ("LeftOf", "HDMI-1")) d))
       = Some ("leftof", "HDMI-1")
    /\ exists pre,
        Display.build_cmd
          (snd (Display.position_setter (Some ("LeftOf", "HDMI-1")) d))
        = inr (Some (pre ++ [Some "--left-of"; Some "HDMI-1"])%list).
Proof.
  intros d Hr Hd.
  assert (Hne : opt_eqb str_pair_eqb (Some ("LeftOf", "HDMI-1"))
                  (ScreenSettings.position d) = false).
  { apply reachable_position_lowered in Hr. unfold position_lowered in Hr.
    destruct (opt_eqb _ _ _) eqn:E; [|reflexivity].
    apply pos_eqb_eq in E. rewrite <- E in Hr. discriminate Hr. }
  assert (E : Display.position_setter (Some ("LeftOf", "HDMI-1")) d
              = (inr tt,
                 ScreenSettings.with_change_table (ChangeTable.set_position true)
                   (ScreenSettings.with_position (Some ("leftof", "HDMI-1")) d))).
  { unfold Display.position_setter. unfold_monad. rewrite Hne. reflexivity. }
  rewrite E. cbn [fst snd]. repeat split.
  destruct (build_cmd_position
              (ScreenSettings.with_change_table (ChangeTable.set_position true)
                 (ScreenSettings.with_position (Some ("leftof", "HDMI-1")) d)))
    as [pre Hpre].
  - exact Hd.
  - reflexivity.
  - exists pre. rewrite Hpre. reflexivity.
Qed.

(** HDMI-1 as built from the query, nothing pending. *)
Lemma left_of_scenario_witness :
  exists pre,
    Display.build_cmd
      (snd (Display.position_setter (Some ("LeftOf", "HDMI-1")) hdmi1))
    = inr (Some (pre ++ [Some "--left-of"; Some "HDMI-1"])%list).
Proof.
  apply (left_of_scenario hdmi1).
  - apply (reach_init "HDMI-1" raw_hdmi1). reflexivity.
  - reflexivity.
Defined.

(** ** Rotations *)

Lemma getitem_int_cases (n : Z) :
  (In n [0; 90; 180; 270] /\ exists s, RotateDirection.getitem_int n = inr s)
  \/ (~ In n [0; 90; 180; 270]
      /\ RotateDirection.getitem_int n = inl (InvalidRotationError (ArgInt n))).
Proof.
  unfold RotateDirection.getitem_int, RotateDirection.rotation_table. cbn.
  destruct (Z.eqb_spec n 0); [left; split; [subst; cbn; auto 6 | eauto] |].
  destruct (Z.eqb_spec n 90); [left; split; [subst; cbn; auto 6 | eauto] |].
  destruct (Z.eqb_spec n 180); [left; split; [subst; cbn; auto 6 | eauto] |].
  destruct (Z.eqb_spec n 270); [left; split; [subst; cbn; auto 6 | eauto] |].
  right. split; [|reflexivity]. intros [H | [H | [H | [H | []]]]]; congruence.
Qed.

Lemma rotation_setter_int (d : Display.t) (n : Z) :
  Display.rotation_setter (inl n) d =
  match RotateDirection.getitem_int n with
  | inr s => Display.rotation_setter (inr s) d
  | inl e => (inl e, d)
  end.
Proof.
  unfold Display.rotation_setter. unfold_monad.
  destruct (RotateDirection.getitem_int n); reflexivity.
Qed.

Lemma rotation_setter_str (d : Display.t) (s : string) :
  fst (Display.rotation_setter (inr s) d) = inr tt
  /\ ScreenSettings.rotation (snd (Display.rotation_setter (inr s) d)) = Some s
  /\ (ScreenSettings.rotation d <> Some s ->
      snd (Display.rotation_setter (inr s) d)
      = ScreenSettings.with_change_table (ChangeTable.set_rotation true)
          (ScreenSettings.with_rotation (Some s) d)).
Proof.
  unfold Display.rotation_setter. unfold_monad.
  destruct (opt_eqb String.eqb (Some s) (ScreenSettings.rotation d)) eqn:E; cbn.
  - apply rot_eqb_eq in E. repeat split; [congruence|].
    intros H. congruence.
  - repeat split.
Qed.

(** C10: [rotation = n] for an int raises exactly when [n] is none of 0, 90,
    180, 270, and then it is "Invalid rotation" with the object untouched;
    [rotation = s] for a string never raises and leaves [s] stored as given,
    whatever it spells; and once such a string is pending, [build_cmd]
    emits [--rotate s] with no check, where nothing switches the display off
    and the position, if pending, converts. A pending position whose
    direction does not convert makes [build_cmd] raise instead. *)
Theorem rotation_string_is_not_validated :
  forall (d : Display.t),
    (forall n : Z,
        (exists e, fst (Display.rotation_setter (inl n) d) = inl e)
        <-> ~ In n [0; 90; 180; 270])
    /\ (forall (n : Z) (e : exn),
           fst (Display.rotation_setter (inl n) d) = inl e ->
           e = InvalidRotationError (ArgInt n)
           /\ snd (Display.rotation_setter (inl n) d) = d)
    /\ (forall s : string,
           fst (Display.rotation_setter (inr s) d) = inr tt
           /\ ScreenSettings.rotation (snd (Display.rotation_setter (inr s) d))
              = Some s)
    /\ (forall s : string,
           ScreenSettings.rotation d <> Some s ->
           disabling d = false ->
           (ChangeTable.position (Display.is_changed d) = false
            \/ exists flag,
                PositionType.getitem
                  (option_map fst (ScreenSettings.position d)) = inr flag) ->
           exists pre post,
             Display.build_cmd (snd (Display.rotation_setter (inr s) d))
             = inr (Some (pre ++ [Some "--rotate"; Some s] ++ post)%list))
    /\ (forall e : exn,
           disabling d = false ->
           ChangeTable.position (Display.is_changed d) = true ->
           PositionType.getitem (option_map fst (ScreenSettings.position d))
           = inl e ->
           Display.build_cmd d = inl e).
Proof.
  intros d. split; [| split; [| split; [| split]]].
  - intros n. rewrite rotation_setter_int.
    destruct (getitem_int_cases n) as [[Hin [s Hs]] | [Hout He]].
    + rewrite Hs. split.
      * intros [e He]. rewrite (proj1 (rotation_setter_str d s)) in He.
        discriminate.
      * intros H. contradiction.
    + rewrite He. split; [intros _; exact Hout |].
      intros _. eexists. reflexivity.
  - intros n e. rewrite rotation_setter_int.
    destruct (getitem_int_cases n) as [[Hin [s Hs]] | [Hout He]].
    + rewrite Hs, (proj1 (rotation_setter_str d s)). discriminate.
    + rewrite He. cbn. intros H. split; congruence.
  - intros s. destruct (rotation_setter_str d s) as (H1 & H2 & _). auto.
  - intros s Hne Hd Hp.
    destruct (rotation_setter_str d s) as (_ & _ & E). rewrite (E Hne).
    destruct (build_cmd_rotation
                (ScreenSettings.with_change_table (ChangeTable.set_rotation true)
                   (ScreenSettings.with_rotation (Some s) d)))
      as (pre & post & H); [exact Hd | reflexivity | exact Hp |].
    exists pre, post. exact H.
  - intros e Hd Hp He.
    destruct (build_cmd_position d Hd Hp) as [pre H].
    rewrite H, He. reflexivity.
Qed.

(** On HDMI-1: 45 is refused; "Sideways" is stored as written and reaches
    the command; with the direction "diagonal" pending, the command is not
    built. *)
Lemma rotation_string_witness :
  (exists e, fst (Display.rotation_setter (inl 45) hdmi1) = inl e)
  /\ ScreenSettings.rotation (snd (Display.rotation_setter (inr "Sideways") hdmi1))
     = Some "Sideways"
  /\ (exists pre post,
         Display.build_cmd (snd (Display.rotation_setter (inr "Sideways") hdmi1))
         = inr (Some (pre ++ [Some "--rotate"; Some "Sideways"] ++ post)%list))
  /\ Display.build_cmd
       (snd (Display.position_setter (Some ("diagonal", "VGA-1")) hdmi1))
     = inl (InvalidPositionError (ArgStr "diagonal")).
Proof.
  destruct (rotation_string_is_not_validated hdmi1)
    as (Hint & _ & Hstr & Hcmd & _).
  destruct (rotation_string_is_not_validated
              (snd (Display.position_setter (Some ("diagonal", "VGA-1")) hdmi1)))
    as (_ & _ & _ & _ & Hpos).
  split; [| split; [| split]].
  - apply Hint. cbn. intros [H | [H | [H | [H | []]]]]; discriminate H.
  - apply Hstr.
  - apply Hcmd; [discriminate | reflexivity | left; reflexivity].
  - apply Hpos; reflexivity.
Defined.

(** ** Applying *)

Lemma build_cmd_pending (d : Display.t) :
  any (ChangeTable.values (Display.is_changed d)) = true ->
  Display.build_cmd d <> inr None.
Proof.
  unfold Display.build_cmd. intros H. rewrite H. case_ifs; discriminate.
Qed.

Lemma reset_after_update (raw : Raw.t) (l : list ModeObj) (d : Display.t) :
  Raw.modes raw = Some l ->
  ScreenSettings.with_change_table (fun _ => ChangeTable.all_false)
    (snd (Display.update_from raw d))
  = snd (Display.update_from raw d).
Proof.
  intros Hm.
  destruct (update_from_modes raw l d Hm) as (_ & _ & _ & Hct & _).
  destruct (snd (Display.update_from raw d)) as [nm res pri en rot pos conn cur ms ct].
  cbn in Hct. subst ct. reflexivity.
Qed.

Section Applying.

Variable W : Type.
Variable exec_cmd : command -> M W (list string).
Variable parse_xrandr_raw : list string -> result (list Raw.t).

Lemma update_setting_query (d : Display.t) (w : W) :
  bind (update_setting exec_cmd parse_xrandr_raw None)
       (fun _ => on_display Display.reset_change_table) (d, w)
  = refresh exec_cmd parse_xrandr_raw d w.
Proof.
  unfold refresh, update_setting, on_display, in_world. unfold_monad. cbn.
  destruct (get_display_data exec_cmd parse_xrandr_raw
              (ScreenSettings.name d) w) as [[e | raw] w'] eqn:Hq; cbn;
    [reflexivity|].
  destruct (Raw.modes raw) as [l|] eqn:Hm.
  - destruct (update_from_modes raw l d Hm) as (E & _).
    rewrite E. cbn. unfold Display.reset_change_table, modify. cbn.
    rewrite (reset_after_update raw l d Hm). reflexivity.
  - rewrite (update_from_no_modes raw d Hm). reflexivity.
Qed.

(** [apply_settings], case by case. *)
Lemma apply_settings_cases (default : bool) (d : Display.t) (w : W) :
  apply_settings exec_cmd parse_xrandr_raw default (d, w) =
  match settle_command default d with
  | inl e => (inl e, (d, w))
  | inr None => refresh exec_cmd parse_xrandr_raw d w
  | inr (Some cmd) =>
      match exec_cmd cmd w with
      | (inl e, w') => (inl e, (d, w'))
      | (inr _, w') => refresh exec_cmd parse_xrandr_raw d w'
      end
  end.
Proof.
  unfold apply_settings, settle_command.
  unfold bind at 1. unfold on_display at 1. unfold get at 1. cbn [fst snd].
  destruct default.
  - unfold bind at 1. unfold bind at 1. unfold in_world at 1. cbn [fst snd].
    destruct (exec_cmd _ w) as [[e | lines] w']; [reflexivity|].
    apply update_setting_query.
  - destruct (any (ChangeTable.values (Display.is_changed d))) eqn:Hany.
    + pose proof (build_cmd_pending d Hany) as Hne.
      unfold bind at 1. unfold when, bind at 1. unfold lift at 1.
      destruct (Display.build_cmd d) as [e | [cmd |]];
        [reflexivity | | congruence].
      unfold bind at 1. unfold in_world at 1. cbn [fst snd].
      destruct (exec_cmd cmd w) as [[e | lines] w']; [reflexivity|].
      apply update_setting_query.
    + unfold bind at 1. unfold when, ret at 1.
      apply update_setting_query.
Qed.

End Applying.

Lemma refresh_outcome (W : Type) (exec_cmd : command -> M W (list string))
      (parse_xrandr_raw : list string -> result (list Raw.t))
      (d : Display.t) (w : W) :
  (exists e w', refresh exec_cmd parse_xrandr_raw d w = (inl e, (d, w')))
  \/ (exists raw l w',
         get_display_data exec_cmd parse_xrandr_raw (ScreenSettings.name d) w
         = (inr raw, w')
         /\ Raw.modes raw = Some l
         /\ refresh exec_cmd parse_xrandr_raw d w
            = (inr tt, (snd (Display.update_from raw d), w'))).
Proof.
  unfold refresh.
  destruct (get_display_data exec_cmd parse_xrandr_raw (ScreenSettings.name d) w)
    as [[e | raw] w'].
  - left. eauto.
  - destruct (Raw.modes raw) as [l|] eqn:Hm.
    + right. exists raw, l, w'. rewrite Hm. auto.
    + left. eauto.
Qed.

Lemma refresh_settled (W : Type) (exec_cmd : command -> M W (list string))
      (parse_xrandr_raw : list string -> result (list Raw.t))
      (d : Display.t) (w : W) :
  let out := refresh exec_cmd parse_xrandr_raw d w in
  (forall e, fst out = inl e -> fst (snd out) = d)
  /\ (fst out = inr tt ->
      ScreenSettings.change_table (fst (snd out)) = ChangeTable.all_false
      /\ exists raw,
          fst (get_display_data exec_cmd parse_xrandr_raw
                 (ScreenSettings.name d) w) = inr raw
          /\ fst (snd out) = snd (Display.update_from raw d)).
Proof.
  cbv zeta.
  destruct (refresh_outcome W exec_cmd parse_xrandr_raw d w)
    as [(e & w' & E) | (raw & l & w' & Hq & Hm & E)]; rewrite E; cbn.
  - split; [reflexivity | discriminate].
  - split; [discriminate|]. intros _. split.
    + apply (update_from_modes raw l d Hm).
    + exists raw. rewrite Hq. split; reflexivity.
Qed.

(** C1, as the code has it. An [apply_settings] call that returns has
    queried the display again after its command, if it had one, and leaves
    the display as updated from that record, every entry of the change
    table false; it returns whenever the command runs and the query yields a
    record of the display with its modes. When [build_cmd] or the command
    raises, the exception leaves [apply_settings] at once; whatever raises,
    the display, pending changes included, is as it was before the call. *)
Theorem apply_settings_settles_when_nothing_raises :
  forall (W : Type) (exec_cmd : command -> M W (list string))
         (parse_xrandr_raw : list string -> result (list Raw.t))
         (default : bool) (d : Display.t) (w : W),
    (forall e : exn,
        fst (apply_settings exec_cmd parse_xrandr_raw default (d, w)) = inl e ->
        fst (snd (apply_settings exec_cmd parse_xrandr_raw default (d, w))) = d)
    /\ (forall e : exn,
           settle_command default d = inl e ->
           apply_settings exec_cmd parse_xrandr_raw default (d, w)
           = (inl e, (d, w)))
    /\ (forall (cmd : command) (e : exn) (w' : W),
           settle_command default d = inr (Some cmd) ->
           exec_cmd cmd w = (inl e, w') ->
           apply_settings exec_cmd parse_xrandr_raw default (d, w)
           = (inl e, (d, w')))
    /\ (fst (apply_settings exec_cmd parse_xrandr_raw default (d, w)) = inr tt ->
        ScreenSettings.change_table
          (fst (snd (apply_settings exec_cmd parse_xrandr_raw default (d, w))))
        = ChangeTable.all_false
        /\ exists (raw : Raw.t) (w1 : W),
            fst (get_display_data exec_cmd parse_xrandr_raw
                   (ScreenSettings.name d) w1) = inr raw
            /\ fst (snd (apply_settings exec_cmd parse_xrandr_raw default (d, w)))
               = snd (Display.update_from raw d))
    /\ (forall (w1 w2 : W) (raw : Raw.t) (l : list ModeObj),
           (settle_command default d = inr None /\ w1 = w
            \/ exists cmd lines,
                settle_command default d = inr (Some cmd)
                /\ exec_cmd cmd w = (inr lines, w1)) ->
           get_display_data exec_cmd parse_xrandr_raw (ScreenSettings.name d) w1
           = (inr raw, w2) ->
           Raw.modes raw = Some l ->
           apply_settings exec_cmd parse_xrandr_raw default (d, w)
           = (inr tt, (snd (Display.update_from raw d), w2))).
Proof.
  intros W exec_cmd parse_xrandr_raw default d w.
  rewrite apply_settings_cases.
  split; [| split; [| split; [| split]]].
  - intros e.
    destruct (settle_command default d) as [e' | [cmd |]]; [reflexivity | |].
    + destruct (exec_cmd cmd w) as [[e' | lines] w']; [reflexivity|].
      apply (refresh_settled W exec_cmd parse_xrandr_raw d w').
    + apply (refresh_settled W exec_cmd parse_xrandr_raw d w).
  - intros e ->. reflexivity.
  - intros cmd e w' -> ->. reflexivity.
  - destruct (settle_command default d) as [e' | [cmd |]]; [discriminate | |].
    + destruct (exec_cmd cmd w) as [[e' | lines] w']; [discriminate|].
      intros H.
      destruct (proj2 (refresh_settled W exec_cmd parse_xrandr_raw d w') H)
        as (Hct & raw & Hq & Hd).
      split; [exact Hct | exists raw, w'; auto].
    + intros H.
      destruct (proj2 (refresh_settled W exec_cmd parse_xrandr_raw d w) H)
        as (Hct & raw & Hq & Hd).
      split; [exact Hct | exists raw, w; auto].
  - intros w1 w2 raw l Hcmd Hq Hm.
    assert (R : refresh exec_cmd parse_xrandr_raw d w1
                = (inr tt, (snd (Display.update_from raw d), w2))).
    { unfold refresh. rewrite Hq, Hm. reflexivity. }
    destruct Hcmd as [[-> ->] | (cmd & lines & -> & ->)]; exact R.
Qed.

(** HDMI-1 with the rotation pending. Where xrandr accepts the command, the
    call returns, the display is HDMI-1 as queried, and the log shows the
    command and then the query. Where xrandr rejects it, the call raises
    and the display is as it was. *)
Lemma apply_settings_witness :
  apply_settings xrandr_accepts parse_hdmi1 false (hdmi1_rotated, [])
  = (inr tt,
     (snd (Display.update_from raw_hdmi1 hdmi1_rotated),
      [map Some ["xrandr"; "--output"; "HDMI-1"; "--auto"; "--rotate"; "right"];
       [Some "xrandr"]]))
  /\ apply_settings xrandr_rejects parse_hdmi1 false (hdmi1_rotated, [])
     = (inl (CalledProcessError 1 ""),
        (hdmi1_rotated,
         [map Some ["xrandr"; "--output"; "HDMI-1"; "--auto"; "--rotate";
                    "right"]])).
Proof.
  split.
  - apply (proj2 (proj2 (proj2 (proj2
             (apply_settings_settles_when_nothing_raises
                (list command) xrandr_accepts parse_hdmi1 false
                hdmi1_rotated []))))
             [map Some ["xrandr"; "--output"; "HDMI-1"; "--auto"; "--rotate";
                        "right"]]
             _ raw_hdmi1 [mode_1080]).
    + right. eexists. exists []. split; reflexivity.
    + reflexivity.
    + reflexivity.
  - apply (proj1 (proj2 (proj2
             (apply_settings_settles_when_nothing_raises
                (list command) xrandr_rejects parse_hdmi1 false
                hdmi1_rotated [])))
             (map Some ["xrandr"; "--output"; "HDMI-1"; "--auto"; "--rotate";
                        "right"])).
    + reflexivity.
    + reflexivity.
Defined.

(** C1 as stated fails when the command fails: on HDMI-1 with the rotation
    pending and an xrandr that rejects the command, [apply_settings] raises,
    no query follows the command in the log, and the entry for rotation is
    still true. *)
Lemma failed_command_leaves_changes_pending :
  fst (apply_settings xrandr_rejects parse_hdmi1 false (hdmi1_rotated, []))
  = inl (CalledProcessError 1 "")
  /\ snd (snd (apply_settings xrandr_rejects parse_hdmi1 false
                 (hdmi1_rotated, [])))
     = [map Some ["xrandr"; "--output"; "HDMI-1"; "--auto"; "--rotate"; "right"]]
  /\ ChangeTable.rotation
       (Display.is_changed
          (fst (snd (apply_settings xrandr_rejects parse_hdmi1 false
                       (hdmi1_rotated, []))))) = true.
Proof. repeat split. Qed.

(* ------------------------------------------------------------------ *)
(** * Further properties of the module *)

(** ** The two converters *)

Lemma lookup_str_inverted (t : string) (n : Z) :
  RotateDirection.lookup_str t RotateDirection.inverted_rot = Some n ->
  RotateDirection.getitem_int n = inr t.
Proof.
  unfold RotateDirection.inverted_rot, RotateDirection.rotation_table. cbn.
  destruct (String.eqb_spec t "normal"); [intros [= <-]; subst; reflexivity|].
  destruct (String.eqb_spec t "right"); [intros [= <-]; subst; reflexivity|].
  destruct (String.eqb_spec t "inverted"); [intros [= <-]; subst; reflexivity|].
  destruct (String.eqb_spec t "left"); [intros [= <-]; subst; reflexivity|].
  discriminate.
Qed.

(** X1: A rotation converts there and back. The name an angle converts to
    converts back to that angle; the angle a name converts to converts back
    to the name as it was looked up, lowered and stripped; and a name
    converts the same in any case of its letters. *)
Theorem rotation_round_trip :
  (forall (n : Z) (s : string),
      RotateDirection.getitem_int n = inr s ->
      RotateDirection.getitem_str s = inr n)
  /\ (forall (s : string) (n : Z),
         RotateDirection.getitem_str s = inr n ->
         RotateDirection.getitem_int n = inr (strip (lower s)))
  /\ (forall s : string,
         RotateDirection.getitem_str (lower s) = RotateDirection.getitem_str s).
Proof.
  split; [| split].
  - intros n s H.
    destruct (getitem_int_cases n) as [[Hin _] | [_ He]].
    + cbn in Hin.
      destruct Hin as [<- | [<- | [<- | [<- | []]]]]; cbn in H;
        injection H as <-; reflexivity.
    + rewrite He in H. discriminate.
  - intros s n. unfold RotateDirection.getitem_str.
    destruct (RotateDirection.lookup_str (strip (lower s))
                RotateDirection.inverted_rot) as [v|] eqn:E; [|discriminate].
    intros [= <-]. apply lookup_str_inverted. exact E.
  - intros s. unfold RotateDirection.getitem_str. rewrite lower_idem.
    reflexivity.
Qed.

Lemma rotation_round_trip_witness :
  RotateDirection.getitem_str "left" = inr 270
  /\ RotateDirection.getitem_int 180 = inr (strip (lower " Inverted ")).
Proof.
  destruct rotation_round_trip as (H1 & H2 & _). split.
  - apply H1. reflexivity.
  - apply H2. reflexivity.
Defined.

Lemma position_lookup_flag (t f : string) :
  PositionType.lookup t PositionType.positions = Some f ->
  (t, f) = ("leftof", "--left-of") \/ (t, f) = ("rightof", "--right-of")
  \/ (t, f) = ("above", "--above") \/ (t, f) = ("below", "--below")
  \/ (t, f) = ("sameas", "--same-as").
Proof.
  unfold PositionType.positions. cbn.
  destruct (String.eqb_spec t "leftof"); [intros [= <-]; subst; auto|].
  destruct (String.eqb_spec t "rightof"); [intros [= <-]; subst; auto|].
  destruct (String.eqb_spec t "above"); [intros [= <-]; subst; auto 6|].
  destruct (String.eqb_spec t "below"); [intros [= <-]; subst; auto 6|].
  destruct (String.eqb_spec t "sameas"); [intros [= <-]; subst; auto 6|].
  discriminate.
Qed.

Lemma position_getitem_inv (o : option string) (f : string) :
  PositionType.getitem o = inr f ->
  exists s, o = Some s
            /\ PositionType.lookup (lower s) PositionType.positions = Some f.
Proof.
  destruct o as [s|]; unfold PositionType.getitem; [|discriminate].
  destruct (PositionType.lookup (lower s) PositionType.positions) as [v|] eqn:E;
    [|discriminate].
  intros [= <-]. exists s. auto.
Qed.

(** X2: A direction converts the same in any case of its letters, [None] never
    converts, and two directions that convert to the same flag are the same
    word up to case: no two of the five names share a flag. *)
Theorem position_flags_are_distinct :
  (forall s : string,
      PositionType.getitem (Some (lower s)) = PositionType.getitem (Some s))
  /\ PositionType.getitem None = inl (InvalidPositionError ArgNone)
  /\ (forall (a b f : string),
         PositionType.getitem (Some a) = inr f ->
         PositionType.getitem (Some b) = inr f ->
         lower a = lower b).
Proof.
  split; [| split].
  - intros s. unfold PositionType.getitem. rewrite lower_idem. reflexivity.
  - reflexivity.
  - intros a b f Ha Hb.
    apply position_getitem_inv in Ha. destruct Ha as (a' & [= <-] & Ha).
    apply position_getitem_inv in Hb. destruct Hb as (b' & [= <-] & Hb).
    apply position_lookup_flag in Ha. apply position_lookup_flag in Hb.
    destruct Ha as [Ha | [Ha | [Ha | [Ha | Ha]]]];
      destruct Hb as [Hb | [Hb | [Hb | [Hb | Hb]]]];
      congruence.
Qed.

Lemma position_flags_witness : lower "LeftOf" = lower "leftOF".
Proof.
  destruct position_flags_are_distinct as (_ & _ & H).
  apply (H "LeftOf" "leftOF" "--left-of"); reflexivity.
Defined.

(** ** What the setters keep *)

(** X3: An assignment that raises has changed nothing: after any property
    assignment that ends in an exception, the display is the object it
    was. *)
Theorem an_assignment_that_raises_changes_nothing :
  forall (c : call) (d : Display.t) (e : exn),
    is_setter c = true ->
    fst (run_call c d) = inl e -> snd (run_call c d) = d.
Proof.
  intros c d e Hc.
  destruct c as [p | b | b | r custom | a | raw]; try discriminate Hc;
    unfold run_call.
  - run. destruct p as [[rel rel_to] |]; cbn; case_ifs;
      (discriminate || reflexivity).
  - run. case_ifs; (discriminate || reflexivity).
  - run. case_ifs; (discriminate || reflexivity).
  - rewrite resolution_setter_cases. case_ifs; (discriminate || reflexivity).
  - run. destruct a as [n | s]; cbn; case_ifs; (discriminate || reflexivity).
Qed.

(** HDMI-1 with its rotation pending: a rotation of 45, a resolution it does
    not list, and the position [(None, None)] over a stored one. *)
Lemma an_assignment_that_raises_witness :
  snd (run_call (SetRotation (inl 45)) hdmi1_rotated) = hdmi1_rotated
  /\ snd (run_call (SetResolution (800, 600) false) hdmi1_rotated)
     = hdmi1_rotated
  /\ snd (run_call (SetPosition None)
            (snd (run_call (SetPosition (Some ("above", "VGA-1")))
                    hdmi1_rotated)))
     = snd (run_call (SetPosition (Some ("above", "VGA-1"))) hdmi1_rotated).
Proof.
  split; [| split].
  - apply (an_assignment_that_raises_changes_nothing
             (SetRotation (inl 45)) hdmi1_rotated
             (InvalidRotationError (ArgInt 45))); reflexivity.
  - apply (an_assignment_that_raises_changes_nothing
             (SetResolution (800, 600) false) hdmi1_rotated
             (UnsupportedResolutionError (800, 600))); reflexivity.
  - apply (an_assignment_that_raises_changes_nothing
             (SetPosition None)
             (snd (run_call (SetPosition (Some ("above", "VGA-1")))
                     hdmi1_rotated))
             (AttributeError "'NoneType' object has no attribute 'lower'"));
      reflexivity.
Defined.

(** X4: No assignment touches what only a query sets: the name, the mode list,
    the current mode and the connected flag are the same after any run of
    assignments. *)
Theorem assignments_keep_what_the_query_set :
  forall (cs : list call) (d : Display.t),
    forallb is_setter cs = true ->
    ScreenSettings.name (run_calls cs d) = ScreenSettings.name d
    /\ ScreenSettings.modes (run_calls cs d) = ScreenSettings.modes d
    /\ ScreenSettings.curr_mode (run_calls cs d) = ScreenSettings.curr_mode d
    /\ ScreenSettings.is_connected (run_calls cs d)
       = ScreenSettings.is_connected d.
Proof.
  induction cs as [|c cs IH]; intros d H; cbn; [auto|].
  cbn in H. apply andb_true_iff in H. destruct H as [Hc Hcs].
  destruct (IH (snd (run_call c d)) Hcs) as (H1 & H2 & H3 & H4).
  rewrite H1, H2, H3, H4. clear IH H1 H2 H3 H4 Hcs.
  destruct c as [p | b | b | r custom | a | raw]; try discriminate Hc;
    unfold run_call.
  - run. destruct p as [[rel rel_to] |]; cbn; case_ifs; auto.
  - run. case_ifs; auto.
  - run. case_ifs; auto.
  - rewrite resolution_setter_cases. case_ifs; auto.
  - run. destruct a as [n | s]; cbn; case_ifs; auto.
Qed.

Lemma assignments_keep_witness :
  ScreenSettings.modes
    (run_calls [SetEnabled false; SetResolution (5, 5) true;
                SetPosition (Some ("Above", "VGA-1"))] hdmi1) = [mode_1080].
Proof.
  apply (assignments_keep_what_the_query_set
           [SetEnabled false; SetResolution (5, 5) true;
            SetPosition (Some ("Above", "VGA-1"))] hdmi1).
  reflexivity.
Defined.

(** X5: Switching a display, or its primary mark, and switching it back leaves
    the object exactly as it was, the change table included: the second
    assignment undoes the first. *)
Theorem toggling_back_restores_the_display :
  forall d : Display.t,
    snd (Display.is_enabled_setter (ScreenSettings.is_enabled d)
           (snd (Display.is_enabled_setter
                   (negb (ScreenSettings.is_enabled d)) d))) = d
    /\ snd (Display.is_primary_setter (ScreenSettings.is_primary d)
              (snd (Display.is_primary_setter
                      (negb (ScreenSettings.is_primary d)) d))) = d.
Proof.
  intros [nm res pri en rot pos conn cur ms [c1 c2 c3 c4 c5]].
  split; run; [destruct en, c3 | destruct pri, c2]; reflexivity.
Qed.

(** X6: Without [custom], no assignment makes the stored resolution one the
    display does not list: if it is among the resolutions of the modes
    before a run of such assignments, it is after. *)
Theorem checked_assignments_keep_the_resolution_listed :
  forall (cs : list call) (d : Display.t),
    forallb is_checked_setter cs = true ->
    In (ScreenSettings.resolution d) (Display.available_resolutions d) ->
    In (ScreenSettings.resolution (run_calls cs d))
       (Display.available_resolutions (run_calls cs d)).
Proof.
  induction cs as [|c cs IH]; intros d H Hin; cbn; [exact Hin|].
  cbn in H. apply andb_true_iff in H. destruct H as [Hc Hcs].
  apply IH; [exact Hcs|]. clear IH Hcs.
  destruct c as [p | b | b | r custom | a | raw]; try discriminate Hc;
    unfold run_call.
  - run. destruct p as [[rel rel_to] |]; cbn; case_ifs; exact Hin.
  - run. case_ifs; exact Hin.
  - run. case_ifs; exact Hin.
  - destruct custom; [discriminate Hc|].
    rewrite resolution_setter_cases. cbn [negb andb].
    destruct (negb (ScreenSettings.is_enabled d) && _)%bool; [exact Hin|].
    destruct (res_eqb r (ScreenSettings.resolution d)); [exact Hin|].
    destruct (res_in r (Display.available_resolutions d)) eqn:E; cbn;
      [|exact Hin].
    apply res_in_In in E. exact E.
  - run. destruct a as [n | s]; cbn; case_ifs; exact Hin.
Qed.

Lemma checked_assignments_witness :
  In (ScreenSettings.resolution
        (run_calls [SetResolution (800, 600) false; SetRotation (inl 90)] hdmi1))
     (Display.available_resolutions
        (run_calls [SetResolution (800, 600) false; SetRotation (inl 90)] hdmi1)).
Proof.
  apply (checked_assignments_keep_the_resolution_listed
           [SetResolution (800, 600) false; SetRotation (inl 90)] hdmi1).
  - reflexivity.
  - left. reflexivity.
Defined.

(** X7: A direction written with an upper-case letter is always taken for a
    change: on any display a program can hold, the assignment stores the
    lowered pair and marks position as pending, also when that pair is the
    one already stored. *)
Theorem mixed_case_position_always_marks :
  forall (d : Display.t) (rel rel_to : string),
    reachable d ->
    lower rel <> rel ->
    Display.position_setter (Some (rel, rel_to)) d
    = (inr tt,
       ScreenSettings.with_change_table (ChangeTable.set_position true)
         (ScreenSettings.with_position (Some (lower rel, rel_to)) d)).
Proof.
  intros d rel rel_to Hr Hne.
  assert (E : opt_eqb str_pair_eqb (Some (rel, rel_to))
                (ScreenSettings.position d) = false).
  { apply reachable_position_lowered in Hr. unfold position_lowered in Hr.
    destruct (opt_eqb _ _ _) eqn:E; [|reflexivity].
    apply pos_eqb_eq in E. rewrite <- E in Hr. congruence. }
  unfold Display.position_setter. unfold_monad. rewrite E. reflexivity.
Qed.

(** HDMI-1 already holds ("above", "VGA-1"), nothing pending after a
    refresh; assigning ("Above", "VGA-1") marks position again. *)
Lemma mixed_case_position_witness :
  let d := run_calls [SetPosition (Some ("above", "VGA-1"));
                      UpdateSetting raw_hdmi1] hdmi1 in
  ScreenSettings.position d = Some ("above", "VGA-1")
  /\ ChangeTable.position (Display.is_changed d) = false
  /\ Display.position_setter (Some ("Above", "VGA-1")) d
     = (inr tt,
        ScreenSettings.with_change_table (ChangeTable.set_position true)
          (ScreenSettings.with_position (Some (lower "Above", "VGA-1")) d)).
Proof.
  cbv zeta. split; [reflexivity | split; [reflexivity|]].
  apply (mixed_case_position_always_marks
           (run_calls [SetPosition (Some ("above", "VGA-1"));
                       UpdateSetting raw_hdmi1] hdmi1) "Above" "VGA-1").
  - apply (reach_call (UpdateSetting raw_hdmi1)).
    apply (reach_call (SetPosition (Some ("above", "VGA-1")))).
    apply (reach_init "HDMI-1" raw_hdmi1). reflexivity.
  - discriminate.
Defined.

(** X8: [check_resolution] passes exactly the resolutions of the listed modes,
    raises "Requested resolution is not supported" with the request on any
    other, and in neither case writes the display. *)
Theorem check_resolution_passes_the_listed :
  forall (d : Display.t) (new_res : Z * Z),
    (In new_res (Display.available_resolutions d) ->
     Display.check_resolution new_res d = (inr tt, d))
    /\ (~ In new_res (Display.available_resolutions d) ->
        Display.check_resolution new_res d
        = (inl (UnsupportedResolutionError new_res), d)).
Proof.
  intros d new_res. split; intros H; run.
  - apply res_in_In in H. rewrite H. reflexivity.
  - apply res_in_not_In in H. rewrite H. reflexivity.
Qed.

Lemma check_resolution_witness :
  Display.check_resolution (1920, 1080) hdmi1 = (inr tt, hdmi1)
  /\ Display.check_resolution (640, 480) hdmi1
     = (inl (UnsupportedResolutionError (640, 480)), hdmi1).
Proof.
  split.
  - apply (proj1 (check_resolution_passes_the_listed hdmi1 (1920, 1080))).
    left. reflexivity.
  - apply (proj2 (check_resolution_passes_the_listed hdmi1 (640, 480))).
    cbn. intros [H | []]. discriminate H.
Defined.

(** ** The commands [build_cmd] returns *)

Lemma any_values_false (c : ChangeTable.t) :
  any (ChangeTable.values c) = false <-> c = ChangeTable.all_false.
Proof.
  destruct c as [[] [] [] [] []]; cbn; split; intros H;
    try discriminate H; reflexivity.
Qed.

(** X9: [build_cmd] returns [False] exactly when no entry of the change table is
    true; with any entry true it returns a command or raises. *)
Theorem build_cmd_is_false_iff_nothing_pending :
  forall d : Display.t,
    Display.build_cmd d = inr None
    <-> Display.is_changed d = ChangeTable.all_false.
Proof.
  intros d. split.
  - intros H. apply any_values_false.
    destruct (any (ChangeTable.values (Display.is_changed d))) eqn:E;
      [|reflexivity].
    exfalso. apply (build_cmd_pending d E H).
  - intros H. apply any_values_false in H.
    unfold Display.build_cmd. rewrite H. reflexivity.
Qed.

Lemma build_cmd_is_false_witness : Display.build_cmd hdmi1 = inr None.
Proof.
  apply (proj2 (build_cmd_is_false_iff_nothing_pending hdmi1)). reflexivity.
Defined.

(** X10: Every command [build_cmd] returns starts [xrandr --output <name>]. What
    follows is [--off] and nothing else when the display is being switched
    off; otherwise it starts with [--mode <w>x<h>] for the stored resolution
    when a resolution is pending and with [--auto] when none is. *)
Theorem every_command_names_the_output_first :
  forall (d : Display.t) (cmd : command),
    Display.build_cmd d = inr (Some cmd) ->
    exists rest,
      cmd = ([Some "xrandr"; Some "--output"; Some (ScreenSettings.name d)]
             ++ rest)%list
      /\ (disabling d = true -> rest = [Some "--off"])
      /\ (disabling d = false ->
          exists rest',
            rest = ((if ChangeTable.resolution (Display.is_changed d)
                     then [Some "--mode";
                           Some (str_of_int (fst (ScreenSettings.resolution d))
                                 ++ "x"
                                 ++ str_of_int (snd (ScreenSettings.resolution d)))%string]
                     else [Some "--auto"]) ++ rest')%list).
Proof.
  intros d cmd. unfold Display.build_cmd, disabling.
  destruct (any (ChangeTable.values (Display.is_changed d))); [|discriminate].
  destruct (ChangeTable.is_enabled (Display.is_changed d)
            && negb (ScreenSettings.is_enabled d))%bool.
  - intros [= <-]. eexists. split; [reflexivity|]. split; [reflexivity|].
    discriminate.
  - destruct (ChangeTable.resolution (Display.is_changed d)),
             (ScreenSettings.is_primary d
              && ChangeTable.is_primary (Display.is_changed d))%bool,
             (ChangeTable.rotation (Display.is_changed d)),
             (ChangeTable.position (Display.is_changed d));
      cbn [app];
      try (destruct (PositionType.getitem _); [discriminate|]);
      intros [= <-]; eexists;
      (split; [reflexivity|]); (split; [discriminate|]);
      intros _; eexists; reflexivity.
Qed.

Lemma every_command_witness :
  exists rest,
    [Some "xrandr"; Some "--output"; Some "HDMI-1"; Some "--auto";
     Some "--rotate"; Some "right"]
    = ([Some "xrandr"; Some "--output";
        Some (ScreenSettings.name hdmi1_rotated)] ++ rest)%list.
Proof.
  destruct (every_command_names_the_output_first hdmi1_rotated
              [Some "xrandr"; Some "--output"; Some "HDMI-1"; Some "--auto";
               Some "--rotate"; Some "right"] eq_refl)
    as (rest & H & _).
  exists rest. exact H.
Defined.

(** X11: With nothing else pending, assigning an enabled display a listed
    resolution other than the one it holds succeeds, and the command is
    exactly [xrandr --output <name> --mode <w>x<h>]: [--mode] takes the
    place of [--auto]. *)
Theorem a_listed_resolution_builds_the_mode_command :
  forall (d : Display.t) (new_res : Z * Z),
    ScreenSettings.is_enabled d = true ->
    Display.is_changed d = ChangeTable.all_false ->
    In new_res (Display.available_resolutions d) ->
    new_res <> ScreenSettings.resolution d ->
    fst (Display.resolution_setter new_res false d) = inr tt
    /\ Display.build_cmd (snd (Display.resolution_setter new_res false d))
       = inr (Some [Some "xrandr"; Some "--output"; Some (ScreenSettings.name d);
                    Some "--mode";
                    Some (str_of_int (fst new_res) ++ "x"
                          ++ str_of_int (snd new_res))%string]).
Proof.
  intros d new_res He Hc Hin Hne.
  rewrite resolution_setter_cases, He.
  apply res_eqb_neq in Hne. apply res_in_In in Hin.
  cbn [negb andb]. rewrite Hne, Hin. cbn [negb andb fst snd].
  split; [reflexivity|].
  unfold Display.is_changed in Hc.
  destruct d as [nm res pri en rot pos conn cur ms ct]. cbn in Hc. subst ct.
  cbn. rewrite andb_false_r. reflexivity.
Qed.

Lemma a_listed_resolution_witness :
  let d := snd (Display.update_from
                  (Raw.Build "HDMI-1" None None
                     (Some [mode_1080;
                            {| addr := 3;
                               obj := Mode.Mode 1280 720 (60 # 1) false false |}]))
                  (ScreenSettings.init "HDMI-1")) in
  Display.build_cmd (snd (Display.resolution_setter (1280, 720) false d))
  = inr (Some (map Some ["xrandr"; "--output"; "HDMI-1"; "--mode"; "1280x720"])).
Proof.
  cbv zeta.
  apply (a_listed_resolution_builds_the_mode_command
           (snd (Display.update_from
                   (Raw.Build "HDMI-1" None None
                      (Some [mode_1080;
                             {| addr := 3;
                                obj := Mode.Mode 1280 720 (60 # 1) false false |}]))
                   (ScreenSettings.init "HDMI-1")))
           (1280, 720)).
  - reflexivity.
  - reflexivity.
  - right. left. reflexivity.
  - discriminate.
Defined.

(** X12: With nothing else pending, changing the primary mark gives
    [xrandr --output <name> --auto], followed by [--primary] only when the
    mark was set: taking the mark away puts no flag in the command. *)
Theorem only_setting_primary_is_emitted :
  forall (d : Display.t) (is_primary : bool),
    Display.is_changed d = ChangeTable.all_false ->
    is_primary <> ScreenSettings.is_primary d ->
    Display.build_cmd (snd (Display.is_primary_setter is_primary d))
    = inr (Some ([Some "xrandr"; Some "--output"; Some (ScreenSettings.name d);
                  Some "--auto"]
                 ++ (if is_primary then [Some "--primary"] else []))%list).
Proof.
  intros d b Hc Hne. unfold Display.is_changed in Hc.
  destruct d as [nm res pri en rot pos conn cur ms ct]. cbn in Hc, Hne. subst ct.
  destruct b, pri; try (exfalso; apply Hne; reflexivity); reflexivity.
Qed.

(** HDMI-1 made primary and settled, then the mark taken away. *)
Lemma only_setting_primary_witness :
  let d := snd (Display.update_from
                  (Raw.Build "HDMI-1" (Some " primary") None (Some [mode_1080]))
                  (ScreenSettings.init "HDMI-1")) in
  ScreenSettings.is_primary d = true
  /\ Display.build_cmd (snd (Display.is_primary_setter false d))
     = inr (Some (map Some ["xrandr"; "--output"; "HDMI-1"; "--auto"])).
Proof.
  cbv zeta. split; [reflexivity|].
  apply (only_setting_primary_is_emitted
           (snd (Display.update_from
                   (Raw.Build "HDMI-1" (Some " primary") None (Some [mode_1080]))
                   (ScreenSettings.init "HDMI-1"))) false).
  - reflexivity.
  - discriminate.
Defined.

(** X13: With nothing else pending, switching on a display that is off gives
    exactly [xrandr --output <name> --auto]. *)
Theorem switching_on_builds_the_auto_command :
  forall d : Display.t,
    ScreenSettings.is_enabled d = false ->
    Display.is_changed d = ChangeTable.all_false ->
    fst (Display.is_enabled_setter true d) = inr tt
    /\ ScreenSettings.is_enabled (snd (Display.is_enabled_setter true d)) = true
    /\ Display.build_cmd (snd (Display.is_enabled_setter true d))
       = inr (Some [Some "xrandr"; Some "--output"; Some (ScreenSettings.name d);
                    Some "--auto"]).
Proof.
  intros d He Hc. unfold Display.is_changed in Hc.
  destruct d as [nm res pri en rot pos conn cur ms ct]. cbn in He, Hc. subst.
  cbn. rewrite andb_false_r. repeat split.
Qed.

Lemma switching_on_witness :
  Display.build_cmd (snd (Display.is_enabled_setter true vga1))
  = inr (Some (map Some ["xrandr"; "--output"; "VGA-1"; "--auto"])).
Proof.
  apply (switching_on_builds_the_auto_command vga1); reflexivity.
Defined.

(** ** What a refresh installs *)

Lemma scan_current_find (l : list ModeObj) (curr : option ModeObj) :
  l <> [] ->
  Display.scan_current l curr = find (fun m => Mode.current (obj m)) l.
Proof.
  revert curr. induction l as [|x l IH]; intros curr Hne; [congruence|].
  cbn. destruct (Mode.current (obj x)); [reflexivity|].
  destruct l as [|y l']; [reflexivity|]. apply IH. discriminate.
Qed.

(** The display a refresh leaves, field by field. *)
Lemma update_from_result (raw : Raw.t) (l : list ModeObj) (d : Display.t) :
  Raw.modes raw = Some l ->
  snd (Display.update_from raw d) =
  ScreenSettings.Build (ScreenSettings.name d)
    (match Display.scan_current l (ScreenSettings.curr_mode d) with
     | Some m => Mode.resolution (obj m)
     | None => ScreenSettings.resolution d
     end)
    (truthy (Raw.pr raw))
    (Display.is_some (Display.scan_current l (ScreenSettings.curr_mode d)))
    (if truthy (Raw.rot raw) then Raw.rot raw else Some "normal")
    (ScreenSettings.position d)
    (match l with [] => false | _ => true end)
    (Display.scan_current l (ScreenSettings.curr_mode d))
    l ChangeTable.all_false.
Proof.
  intros Hm. unfold Display.update_from. rewrite Hm.
  unfold Display.reset_change_table. unfold_monad. cbn.
  destruct (truthy (Raw.rot raw)); cbn;
    destruct (Display.scan_current l (ScreenSettings.curr_mode d)); cbn;
    reflexivity.
Qed.

(** X14: A refresh from a record that lists at least one mode succeeds and takes
    everything but the name, the position and (see below) the resolution
    from the record, whatever the display held and whatever was pending:
    the current mode is the first listed mode flagged current, the display
    is enabled exactly when there is one, it is connected, primary as the
    record marks it, rotated as the record says or "normal" when the record
    says nothing, and no change is pending. *)
Theorem a_refresh_takes_the_record :
  forall (raw : Raw.t) (l : list ModeObj) (d : Display.t),
    Raw.modes raw = Some l ->
    l <> [] ->
    fst (Display.update_from raw d) = inr tt
    /\ ScreenSettings.modes (snd (Display.update_from raw d)) = l
    /\ ScreenSettings.curr_mode (snd (Display.update_from raw d))
       = find (fun m => Mode.current (obj m)) l
    /\ ScreenSettings.is_enabled (snd (Display.update_from raw d))
       = existsb (fun m => Mode.current (obj m)) l
    /\ ScreenSettings.is_connected (snd (Display.update_from raw d)) = true
    /\ ScreenSettings.is_primary (snd (Display.update_from raw d))
       = truthy (Raw.pr raw)
    /\ ScreenSettings.rotation (snd (Display.update_from raw d))
       = (if truthy (Raw.rot raw) then Raw.rot raw else Some "normal")
    /\ ScreenSettings.change_table (snd (Display.update_from raw d))
       = ChangeTable.all_false
    /\ ScreenSettings.name (snd (Display.update_from raw d))
       = ScreenSettings.name d
    /\ ScreenSettings.position (snd (Display.update_from raw d))
       = ScreenSettings.position d.
Proof.
  intros raw l d Hm Hne.
  destruct (update_from_modes raw l d Hm) as (E & _).
  split; [rewrite E; reflexivity|].
  rewrite (update_from_result raw l d Hm). cbn.
  rewrite (scan_current_find l (ScreenSettings.curr_mode d) Hne).
  repeat split.
  - clear. induction l as [|x l IH]; cbn; [reflexivity|].
    destruct (Mode.current (obj x)); [reflexivity | exact IH].
  - destruct l; [congruence | reflexivity].
Qed.

(** HDMI-1 switched off, made primary and rotated by hand, then refreshed
    from its record: it is as the record says. *)
Lemma a_refresh_takes_the_record_witness :
  snd (Display.update_from raw_hdmi1
         (run_calls [SetEnabled false; SetPrimary true; SetRotation (inl 180)]
            hdmi1)) = hdmi1
  /\ ScreenSettings.curr_mode
       (snd (Display.update_from raw_hdmi1
               (run_calls [SetEnabled false; SetPrimary true;
                           SetRotation (inl 180)] hdmi1)))
     = find (fun m => Mode.current (obj m)) [mode_1080].
Proof.
  split; [reflexivity|].
  apply (a_refresh_takes_the_record raw_hdmi1 [mode_1080]
           (run_calls [SetEnabled false; SetPrimary true; SetRotation (inl 180)]
              hdmi1)).
  - reflexivity.
  - discriminate.
Defined.

(** X15: A refresh sets the stored resolution only when it finds a current mode:
    then the resolution is that mode's and is a listed one. When the record
    lists modes and none is current, the resolution stays what it was: it
    is not put back to the [(0, 0)] a display starts with. *)
Theorem a_refresh_keeps_the_resolution_of_a_display_that_is_off :
  forall (raw : Raw.t) (l : list ModeObj) (d : Display.t),
    Raw.modes raw = Some l ->
    l <> [] ->
    (forall m,
        find (fun m => Mode.current (obj m)) l = Some m ->
        ScreenSettings.resolution (snd (Display.update_from raw d))
        = Mode.resolution (obj m)
        /\ In (ScreenSettings.resolution (snd (Display.update_from raw d)))
              (Display.available_resolutions (snd (Display.update_from raw d))))
    /\ (find (fun m => Mode.current (obj m)) l = None ->
        ScreenSettings.resolution (snd (Display.update_from raw d))
        = ScreenSettings.resolution d).
Proof.
  intros raw l d Hm Hne.
  rewrite (update_from_result raw l d Hm).
  rewrite (scan_current_find l (ScreenSettings.curr_mode d) Hne).
  unfold Display.available_resolutions. cbn. split.
  - intros m Hf. rewrite Hf. split; [reflexivity|].
    apply find_some in Hf. destruct Hf as [Hin _].
    apply (in_map (fun r => Mode.resolution (obj r))) in Hin. exact Hin.
  - intros ->. reflexivity.
Qed.

(** HDMI-1 holds 1920x1080; a refresh that finds it off leaves that. *)
Lemma a_refresh_keeps_the_resolution_witness :
  ScreenSettings.resolution
    (snd (Display.update_from
            (Raw.Build "HDMI-1" None None (Some [mode_768])) hdmi1))
  = (1920, 1080).
Proof.
  apply (proj2 (a_refresh_keeps_the_resolution_of_a_display_that_is_off
                  (Raw.Build "HDMI-1" None None (Some [mode_768]))
                  [mode_768] hdmi1 eq_refl
                  (fun H => @nil_cons ModeObj mode_768 [] (eq_sym H)))).
  reflexivity.
Defined.

(** X16: Refreshing twice from one record is refreshing once: the second refresh
    changes nothing, whatever the record (also one with no modes, or with
    an empty list of them). *)
Theorem a_second_refresh_changes_nothing :
  forall (raw : Raw.t) (d : Display.t),
    snd (Display.update_from raw (snd (Display.update_from raw d)))
    = snd (Display.update_from raw d).
Proof.
  intros raw d. destruct (Raw.modes raw) as [l|] eqn:Hm.
  - rewrite (update_from_result raw l (snd (Display.update_from raw d)) Hm).
    rewrite (update_from_result raw l d Hm). cbn.
    assert (E : Display.scan_current l
                  (Display.scan_current l (ScreenSettings.curr_mode d))
                = Display.scan_current l (ScreenSettings.curr_mode d)).
    { destruct l as [|x l']; [reflexivity|].
      rewrite !(scan_current_find (x :: l')) by discriminate. reflexivity. }
    rewrite E.
    destruct (Display.scan_current l (ScreenSettings.curr_mode d));
      reflexivity.
  - rewrite !(update_from_no_modes raw _ Hm). reflexivity.
Qed.

(** ** What every display keeps *)

Lemma scan_current_is_current (l : list ModeObj) (curr : option ModeObj)
      (m : ModeObj) :
  (forall c, curr = Some c -> Mode.current (obj c) = true) ->
  Display.scan_current l curr = Some m -> Mode.current (obj m) = true.
Proof.
  revert curr. induction l as [|x l IH]; intros curr Hc H; cbn in H.
  - apply Hc. exact H.
  - destruct (Mode.current (obj x)) eqn:E.
    + injection H as <-. exact E.
    + apply (IH None); [discriminate | exact H].
Qed.

Lemma update_from_kept (raw : Raw.t) (d : Display.t) :
  (forall m, ScreenSettings.curr_mode d = Some m -> Mode.current (obj m) = true) ->
  Raw.modes raw <> None ->
  ScreenSettings.is_connected (snd (Display.update_from raw d))
  = (match ScreenSettings.modes (snd (Display.update_from raw d)) with
     | [] => false | _ => true end)
  /\ (exists s, ScreenSettings.rotation (snd (Display.update_from raw d)) = Some s)
  /\ (forall m, ScreenSettings.curr_mode (snd (Display.update_from raw d)) = Some m ->
                Mode.current (obj m) = true).
Proof.
  intros Hc Hm. destruct (Raw.modes raw) as [l|] eqn:E; [|congruence].
  rewrite (update_from_result raw l d E). cbn. split; [reflexivity|]. split.
  - destruct (Raw.rot raw) as [s|]; cbn; [|eauto].
    destruct (negb (s =? "")%string); eauto.
  - intros m. apply scan_current_is_current. exact Hc.
Qed.

Lemma setter_keeps_query_fields (c : call) (d : Display.t) :
  is_setter c = true ->
  ScreenSettings.name (snd (run_call c d)) = ScreenSettings.name d
  /\ ScreenSettings.modes (snd (run_call c d)) = ScreenSettings.modes d
  /\ ScreenSettings.curr_mode (snd (run_call c d)) = ScreenSettings.curr_mode d
  /\ ScreenSettings.is_connected (snd (run_call c d))
     = ScreenSettings.is_connected d.
Proof.
  intros Hc.
  destruct c as [p | b | b | r custom | a | raw]; try discriminate Hc;
    unfold run_call.
  - run. destruct p as [[rel rel_to] |]; cbn; case_ifs; auto.
  - run. case_ifs; auto.
  - run. case_ifs; auto.
  - rewrite resolution_setter_cases. case_ifs; auto.
  - run. destruct a as [n | s]; cbn; case_ifs; auto.
Qed.

Lemma setter_keeps_rotation_set (c : call) (d : Display.t) :
  is_setter c = true ->
  (exists s, ScreenSettings.rotation d = Some s) ->
  exists s, ScreenSettings.rotation (snd (run_call c d)) = Some s.
Proof.
  intros Hc H.
  destruct c as [p | b | b | r custom | a | raw]; try discriminate Hc;
    unfold run_call.
  - run. destruct p as [[rel rel_to] |]; cbn; case_ifs; exact H.
  - run. case_ifs; exact H.
  - run. case_ifs; exact H.
  - rewrite resolution_setter_cases. case_ifs; exact H.
  - run. destruct a as [n | s]; cbn; case_ifs; eauto.
Qed.

Lemma run_call_kept (c : call) (d : Display.t) :
  kept d -> kept (snd (run_call c d)).
Proof.
  intros (H1 & H2 & H3 & H4). unfold kept.
  split; [| split; [| split]];
    [| | | apply run_call_position_lowered; exact H4].
  - destruct (is_setter c) eqn:Hs.
    + destruct (setter_keeps_query_fields c d Hs) as (_ & -> & _ & ->).
      exact H1.
    + destruct c; try discriminate Hs. unfold run_call.
      destruct (Raw.modes raw_setting) as [l|] eqn:E.
      * apply (update_from_kept raw_setting d H3). congruence.
      * rewrite (update_from_no_modes raw_setting d E). exact H1.
  - destruct (is_setter c) eqn:Hs.
    + apply setter_keeps_rotation_set; assumption.
    + destruct c; try discriminate Hs. unfold run_call.
      destruct (Raw.modes raw_setting) as [l|] eqn:E.
      * apply (update_from_kept raw_setting d H3). congruence.
      * rewrite (update_from_no_modes raw_setting d E). exact H2.
  - destruct (is_setter c) eqn:Hs.
    + destruct (setter_keeps_query_fields c d Hs) as (_ & _ & -> & _).
      exact H3.
    + destruct c; try discriminate Hs. unfold run_call.
      destruct (Raw.modes raw_setting) as [l|] eqn:E.
      * apply (update_from_kept raw_setting d H3). congruence.
      * rewrite (update_from_no_modes raw_setting d E). exact H3.
Qed.

(** X18: On every display a program can hold, built by the constructor and then
    assigned to and refreshed in any order: the display is connected exactly
    when its mode list is not empty; its rotation is set; its current mode,
    if it has one, is a mode flagged current; and the direction of its
    position is in lower case. *)
Theorem what_every_display_keeps :
  forall d : Display.t,
    reachable d ->
    ScreenSettings.is_connected d
    = (match ScreenSettings.modes d with [] => false | _ => true end)
    /\ (exists s, ScreenSettings.rotation d = Some s)
    /\ (forall m, ScreenSettings.curr_mode d = Some m ->
                  Mode.current (obj m) = true)
    /\ (forall rel rel_to,
           ScreenSettings.position d = Some (rel, rel_to) -> lower rel = rel).
Proof.
  intros d Hr.
  assert (K : kept d).
  { induction Hr as [name raw d Hinit | c d _ IH].
    - apply init_inv in Hinit. destruct Hinit as (l & Hm & ->).
      destruct (update_from_kept raw (ScreenSettings.init name))
        as (A & B & C); [discriminate | congruence |].
      unfold kept. repeat split; try assumption.
      unfold position_lowered. rewrite update_from_position. exact I.
    - apply run_call_kept. exact IH. }
  destruct K as (A & B & C & D). repeat split; try assumption.
  intros rel rel_to Hp. unfold position_lowered in D. rewrite Hp in D. exact D.
Qed.

(** VGA-1 after a switch-on, a direction in capitals and a refresh. *)
Lemma what_every_display_keeps_witness :
  exists s,
    ScreenSettings.rotation
      (run_calls [SetEnabled true; SetPosition (Some ("BELOW", "HDMI-1"));
                  UpdateSetting raw_vga1] vga1) = Some s.
Proof.
  apply (what_every_display_keeps
           (run_calls [SetEnabled true; SetPosition (Some ("BELOW", "HDMI-1"));
                       UpdateSetting raw_vga1] vga1)).
  apply (reach_call (UpdateSetting raw_vga1)).
  apply (reach_call (SetPosition (Some ("BELOW", "HDMI-1")))).
  apply (reach_call (SetEnabled true)).
  apply (reach_init "VGA-1" raw_vga1). reflexivity.
Defined.

(** X19: The constructor raises [KeyError('modes')] on a record with no
    ['modes'] key. The display it builds carries the given name, holds no
    position and has no change pending; its current mode, if it has one, is one of the modes it
    lists, also when the list is empty; it is enabled exactly when it has a
    current mode; and without one its resolution is [(0, 0)]. *)
Theorem a_new_display_is_consistent :
  forall (name : string) (raw : Raw.t),
    (Raw.modes raw = None ->
     Display.init name raw = inl (KeyError "modes"))
    /\ (forall d : Display.t,
           Display.init name raw = inr d ->
           ScreenSettings.name d = name
           /\ ScreenSettings.position d = None
           /\ ScreenSettings.change_table d = ChangeTable.all_false
           /\ Raw.modes raw = Some (ScreenSettings.modes d)
           /\ (forall m, ScreenSettings.curr_mode d = Some m ->
                         In m (ScreenSettings.modes d))
           /\ ScreenSettings.is_enabled d
              = Display.is_some (ScreenSettings.curr_mode d)
           /\ (ScreenSettings.curr_mode d = None ->
               ScreenSettings.resolution d = (0, 0))).
Proof.
  intros name raw. split.
  - intros Hm. unfold Display.init.
    rewrite (update_from_no_modes raw (ScreenSettings.init name) Hm).
    reflexivity.
  - intros d Hinit. apply init_inv in Hinit. destruct Hinit as (l & Hm & ->).
    rewrite (update_from_result raw l (ScreenSettings.init name) Hm). cbn.
    repeat split; try assumption.
    + intros m Hs. destruct l as [|x l'].
      * cbn in Hs. discriminate.
      * apply (scan_current_nonempty (x :: l') m None); [discriminate|exact Hs].
    + intros ->. reflexivity.
Qed.

Lemma a_new_display_witness :
  Display.init "HDMI-1" (Raw.Build "HDMI-1" None None None)
  = inl (KeyError "modes")
  /\ ScreenSettings.resolution vga1 = (0, 0).
Proof.
  split.
  - apply (proj1 (a_new_display_is_consistent
                    "HDMI-1" (Raw.Build "HDMI-1" None None None))).
    reflexivity.
  - apply (proj2 (a_new_display_is_consistent "VGA-1" raw_vga1) vga1);
      reflexivity.
Defined.

(** ** Queries and applying *)




(** X21: With a position pending whose direction does not convert, and nothing
    switching the display off, [apply_settings()] raises "Invalid position"
    before it runs anything: the world is untouched, and so is the display,
    so that every later [apply_settings()] raises again until the display
    is refreshed or a direction that converts is assigned. *)
Theorem an_unknown_direction_blocks_apply_settings :
  forall (W : Type) (exec_cmd : command -> M W (list string))
         (parse_xrandr_raw : list string -> result (list Raw.t))
         (d : Display.t) (w : W) (e : exn),
    disabling d = false ->
    ChangeTable.position (Display.is_changed d) = true ->
    PositionType.getitem (option_map fst (ScreenSettings.position d)) = inl e ->
    apply_settings exec_cmd parse_xrandr_raw false (d, w) = (inl e, (d, w)).
Proof.
  intros W exec_cmd parse d w e Hd Hp He.
  rewrite apply_settings_cases. unfold settle_command.
  assert (Hany : any (ChangeTable.values (Display.is_changed d)) = true).
  { unfold any, ChangeTable.values. cbn. rewrite Hp, !orb_true_r. reflexivity. }
  rewrite Hany.
  destruct (build_cmd_position d Hd Hp) as [pre H]. rewrite H, He. reflexivity.
Qed.

Lemma an_unknown_direction_witness :
  apply_settings xrandr_accepts parse_hdmi1 false
    (snd (Display.position_setter (Some ("diagonal", "VGA-1")) hdmi1), [])
  = (inl (InvalidPositionError (ArgStr "diagonal")),
     (snd (Display.position_setter (Some ("diagonal", "VGA-1")) hdmi1), [])).
Proof.
  apply (an_unknown_direction_blocks_apply_settings
           (list command) xrandr_accepts parse_hdmi1
           (snd (Display.position_setter (Some ("diagonal", "VGA-1")) hdmi1)) []);
    reflexivity.
Defined.

(** X22: With nothing pending, [apply_settings()] builds and runs no command: it
    is the query and the update from its record, and nothing else. That is
    so in particular right after an [apply_settings] that returned, with
    [default] or not. *)
Theorem apply_settings_with_nothing_pending_only_refreshes :
  forall (W : Type) (exec_cmd : command -> M W (list string))
         (parse_xrandr_raw : list string -> result (list Raw.t))
         (d : Display.t) (w : W),
    (Display.is_changed d = ChangeTable.all_false ->
     apply_settings exec_cmd parse_xrandr_raw false (d, w)
     = refresh exec_cmd parse_xrandr_raw d w)
    /\ (forall default : bool,
           fst (apply_settings exec_cmd parse_xrandr_raw default (d, w)) = inr tt ->
           apply_settings exec_cmd parse_xrandr_raw false
             (snd (apply_settings exec_cmd parse_xrandr_raw default (d, w)))
           = refresh exec_cmd parse_xrandr_raw
               (fst (snd (apply_settings exec_cmd parse_xrandr_raw default (d, w))))
               (snd (snd (apply_settings exec_cmd parse_xrandr_raw default (d, w))))).
Proof.
  intros W exec_cmd parse d w.
  assert (A : forall d' w',
             Display.is_changed d' = ChangeTable.all_false ->
             apply_settings exec_cmd parse false (d', w')
             = refresh exec_cmd parse d' w').
  { intros d' w' H. rewrite apply_settings_cases. unfold settle_command.
    apply any_values_false in H. rewrite H. reflexivity. }
  split; [apply A|].
  intros default H.
  destruct (apply_settings exec_cmd parse default (d, w)) as [r [d' w']] eqn:E.
  cbn [fst snd] in *. apply A.
  assert (S : fst (apply_settings exec_cmd parse default (d, w)) = inr tt)
    by (rewrite E; exact H).
  rewrite apply_settings_cases in S, E.
  destruct (settle_command default d) as [e' | [cmd |]]; [discriminate S | |].
  - destruct (exec_cmd cmd w) as [[e' | lines] w1]; [discriminate S|].
    destruct (proj2 (refresh_settled W exec_cmd parse d w1) S) as (Hct & _).
    rewrite E in Hct. exact Hct.
  - destruct (proj2 (refresh_settled W exec_cmd parse d w) S) as (Hct & _).
    rewrite E in Hct. exact Hct.
Qed.

(** On HDMI-1 with the rotation pending: the first call runs the command
    and the query, the second the query only. *)
Lemma apply_settings_only_refreshes_witness :
  snd (snd (apply_settings xrandr_accepts parse_hdmi1 false
              (snd (apply_settings xrandr_accepts parse_hdmi1 false
                      (hdmi1_rotated, [])))))
  = [map Some ["xrandr"; "--output"; "HDMI-1"; "--auto"; "--rotate"; "right"];
     [Some "xrandr"]; [Some "xrandr"]].
Proof.
  rewrite (proj2 (apply_settings_with_nothing_pending_only_refreshes
                    (list command) xrandr_accepts parse_hdmi1
                    hdmi1_rotated []) false eq_refl).
  reflexivity.
Defined.

(* ------------------------------------------------------------------ *)
(** ** The parser *)

Section ParserFacts.

Variable output_search : string -> option (string * option string * option string).
Variable mode_search : string -> option Mode.t.

Lemma update_last_modes_inv (modes : list ModeObj) (outs l : list Raw.t) :
  update_last_modes modes outs = inr l ->
  exists pre item,
    outs = (pre ++ [item])%list
    /\ l = (pre ++ [Raw.Build (Raw.out item) (Raw.pr item) (Raw.rot item)
                      (Some modes)])%list.
Proof.
  revert l. induction outs as [|x outs IH]; intros l H; [discriminate|].
  cbn in H. destruct outs as [|y outs'].
  - injection H as <-. exists [], x. auto.
  - destruct (update_last_modes modes (y :: outs')) as [e | l'] eqn:E;
      [discriminate|].
    injection H as <-.
    destruct (IH l' eq_refl) as (pre & item & Ho & Hl).
    exists (x :: pre), item. cbn [app]. rewrite Ho, Hl. auto.
Qed.

Lemma update_last_modes_app (modes : list ModeObj) (pre : list Raw.t) (item : Raw.t) :
  update_last_modes modes (pre ++ [item])
  = inr (pre ++ [Raw.Build (Raw.out item) (Raw.pr item) (Raw.rot item)
                   (Some modes)])%list.
Proof.
  induction pre as [|x pre IH]; [reflexivity|].
  cbn [app update_last_modes]. rewrite IH.
  destruct (pre ++ [item])%list eqn:E; [destruct pre; discriminate|].
  reflexivity.
Qed.

(** [flush_modes] on a list of records that is not empty: it succeeds, keeps
    every record but the last, and keeps the groups of all. *)
Lemma flush_modes_app (modes : list ModeObj) (pre : list Raw.t) (item : Raw.t) :
  flush_modes modes (pre ++ [item])
  = inr (pre ++ [match modes with
                 | [] => item
                 | _ => Raw.Build (Raw.out item) (Raw.pr item) (Raw.rot item)
                          (Some modes)
                 end])%list.
Proof.
  destruct modes as [|m modes]; [reflexivity|].
  unfold flush_modes. apply update_last_modes_app.
Qed.

Lemma nonempty_snoc {A : Type} (l : list A) :
  l <> [] -> exists pre x, l = (pre ++ [x])%list.
Proof.
  intros H. destruct (exists_last H) as (pre & x & E). eauto.
Qed.

Lemma parse_line_other (line : string) (st : parse_state) :
  kind_of output_search mode_search line = OtherLine ->
  parse_line output_search mode_search line st = inr st.
Proof.
  unfold kind_of, parse_line.
  destruct (output_search line) as [[[o p] r]|]; [discriminate|].
  destruct (mode_search line); [discriminate | reflexivity].
Qed.

(** Once a record is open the loop cannot fail, and a record stays open. *)
Lemma parse_lines_open (lines : list string) (outs : list Raw.t)
      (ms : list ModeObj) (n : nat) :
  outs <> [] ->
  exists st',
    parse_lines output_search mode_search lines
      {| st_outputs := outs; st_modes := ms; st_next := n |} = inr st'
    /\ st_outputs st' <> [].
Proof.
  revert outs ms n. induction lines as [|line lines IH]; intros outs ms n Hne.
  - eexists. split; [reflexivity | exact Hne].
  - cbn [parse_lines]. unfold parse_line. cbn [st_outputs st_modes st_next].
    destruct (output_search line) as [[[o p] r]|].
    + destruct (nonempty_snoc outs Hne) as (pre & x & ->).
      rewrite flush_modes_app. apply IH.
      intros H. apply app_eq_nil in H. destruct H as [_ H]. discriminate H.
    + destruct (mode_search line); apply IH; exact Hne.
Qed.

(** With modes collected and no record to give them to, the parse fails
    whatever follows. *)
Lemma parse_lines_orphans (lines : list string) (ms : list ModeObj) (n : nat) :
  ms <> [] ->
  match parse_lines output_search mode_search lines
          {| st_outputs := []; st_modes := ms; st_next := n |} with
  | inr st => flush_modes (st_modes st) (st_outputs st)
  | inl e => inl e
  end = inl (IndexError "list index out of range").
Proof.
  revert ms n. induction lines as [|line lines IH]; intros ms n Hne.
  - cbn. destruct ms; [congruence | reflexivity].
  - cbn [parse_lines]. unfold parse_line. cbn [st_outputs st_modes st_next].
    destruct (output_search line) as [[[o p] r]|].
    + destruct ms; [congruence | reflexivity].
    + destruct (mode_search line).
      * apply IH. intros H. apply app_eq_nil in H. destruct H as [_ H].
        discriminate H.
      * apply IH. exact Hne.
Qed.

(** X23: The parse raises exactly when the first line it does not skip is a mode
    line, a mode with no output above it; what it raises is the
    [IndexError] of [connected_outputs[-1]] on the empty list. *)
Theorem the_parse_fails_iff_a_mode_line_comes_first :
  forall (base : nat) (lines : list string) (e : exn),
    parse_xrandr_raw output_search mode_search base lines = inl e
    <-> first_kind output_search mode_search lines = Some ModeLine
        /\ e = IndexError "list index out of range".
Proof.
  intros base lines e. unfold parse_xrandr_raw. revert base.
  induction lines as [|line lines IH]; intros base.
  - cbn. split; [discriminate | intros [H _]; discriminate H].
  - cbn [first_kind parse_lines].
    destruct (kind_of output_search mode_search line) eqn:K.
    + unfold kind_of in K. unfold parse_line.
      destruct (output_search line) as [[[o p] r]|]; cbn.
      * destruct (parse_lines_open lines [Raw.Build o p r None] [] base)
          as (st' & -> & Hne); [discriminate|].
        destruct (nonempty_snoc (st_outputs st') Hne) as (pre & x & ->).
        rewrite flush_modes_app.
        split; [discriminate | intros [H _]; discriminate H].
      * destruct (mode_search line); discriminate K.
    + unfold kind_of in K. unfold parse_line.
      destruct (output_search line) as [[[o p] r]|]; [discriminate K|].
      destruct (mode_search line) as [m|]; [|discriminate K].
      cbn [st_outputs st_modes st_next app].
      rewrite parse_lines_orphans by discriminate.
      split; [intros [= <-]; auto | intros [_ ->]; reflexivity].
    + rewrite (parse_line_other line _ K). apply IH.
Qed.

Lemma flush_modes_groups (ms : list ModeObj) (outs l : list Raw.t) :
  flush_modes ms outs = inr l ->
  map groups_of l = map groups_of outs
  /\ (Forall (fun r => Raw.modes r <> Some []) outs ->
      Forall (fun r => Raw.modes r <> Some []) l).
Proof.
  destruct ms as [|m ms]; cbn.
  - intros [= <-]. auto.
  - intros H. apply update_last_modes_inv in H.
    destruct H as (pre & item & -> & ->). split.
    + rewrite !map_app. reflexivity.
    + intros F. apply Forall_app in F. destruct F as [F _].
      apply Forall_app. split; [exact F|].
      constructor; [cbn; discriminate | constructor].
Qed.

Lemma parse_lines_groups (lines : list string) (st st' : parse_state) :
  parse_lines output_search mode_search lines st = inr st' ->
  map groups_of (st_outputs st')
  = (map groups_of (st_outputs st) ++ opened output_search lines)%list
  /\ (Forall (fun r => Raw.modes r <> Some []) (st_outputs st) ->
      Forall (fun r => Raw.modes r <> Some []) (st_outputs st')).
Proof.
  revert st. induction lines as [|line lines IH]; intros st H.
  - cbn in H. injection H as <-. cbn. rewrite app_nil_r. auto.
  - cbn [parse_lines] in H. unfold opened. cbn [flat_map].
    fold (opened output_search lines).
    destruct (parse_line output_search mode_search line st) as [e | st1] eqn:E;
      [discriminate|].
    destruct (IH st1 H) as [G F]. clear IH H.
    unfold parse_line in E.
    destruct (output_search line) as [[[o p] r]|].
    + destruct (flush_modes (st_modes st) (st_outputs st)) as [e | outs] eqn:Ef;
        [discriminate|].
      injection E as <-. cbn [st_outputs] in G, F.
      destruct (flush_modes_groups _ _ _ Ef) as [G' F'].
      split.
      * rewrite G, map_app, G'. cbn. rewrite <- app_assoc. reflexivity.
      * intros F0. apply F. apply Forall_app. split; [apply F'; exact F0|].
        constructor; [cbn; discriminate | constructor].
    + destruct (mode_search line); injection E as <-; cbn in G, F |- *; auto.
Qed.

(** X24: A parse that succeeds returns one record per line the output pattern
    matches, in the order of the lines, each with the groups of its line;
    and a record either has no ['modes'] key or a list of modes that is not
    empty: the parser never attaches an empty list. *)
Theorem the_parse_opens_a_record_per_output_line :
  forall (base : nat) (lines : list string) (items : list Raw.t),
    parse_xrandr_raw output_search mode_search base lines = inr items ->
    map groups_of items = opened output_search lines
    /\ (forall r, In r items -> Raw.modes r <> Some []).
Proof.
  intros base lines items. unfold parse_xrandr_raw.
  destruct (parse_lines output_search mode_search lines _) as [e | st] eqn:E;
    [discriminate|].
  intros H.
  destruct (parse_lines_groups _ _ _ E) as [G F]. cbn in G, F.
  destruct (flush_modes_groups _ _ _ H) as [G' F']. split.
  - rewrite G', G. reflexivity.
  - apply Forall_forall. apply F', F. constructor.
Qed.

Lemma parse_lines_skip (lines : list string) (st : parse_state) :
  parse_lines output_search mode_search
    (filter (fun line => negb (is_other output_search mode_search line)) lines) st
  = parse_lines output_search mode_search lines st.
Proof.
  revert st. induction lines as [|line lines IH]; intros st; [reflexivity|].
  cbn [filter]. unfold is_other at 1.
  destruct (kind_of output_search mode_search line) eqn:K; cbn [negb].
  - cbn [parse_lines].
    destruct (parse_line output_search mode_search line st); [reflexivity|].
    apply IH.
  - cbn [parse_lines].
    destruct (parse_line output_search mode_search line st); [reflexivity|].
    apply IH.
  - cbn [parse_lines]. rewrite (parse_line_other line st K). apply IH.
Qed.

(** X25: Lines that neither pattern matches do not count: the parse of a report
    is the parse of the report without them. *)
Theorem the_parse_skips_what_it_does_not_match :
  forall (base : nat) (lines : list string),
    parse_xrandr_raw output_search mode_search base
      (filter (fun line => negb (is_other output_search mode_search line)) lines)
    = parse_xrandr_raw output_search mode_search base lines.
Proof.
  intros base lines. unfold parse_xrandr_raw. rewrite parse_lines_skip.
  reflexivity.
Qed.

Lemma parse_lines_app (l1 l2 : list string) (st : parse_state) :
  parse_lines output_search mode_search (l1 ++ l2) st
  = match parse_lines output_search mode_search l1 st with
    | inr st1 => parse_lines output_search mode_search l2 st1
    | inl e => inl e
    end.
Proof.
  revert st. induction l1 as [|line l1 IH]; intros st; [reflexivity|].
  cbn [app parse_lines].
  destruct (parse_line output_search mode_search line st); [reflexivity|].
  apply IH.
Qed.

Lemma parse_lines_next (lines : list string) (st st' : parse_state) :
  parse_lines output_search mode_search lines st = inr st' ->
  st_next st' = (st_next st + created output_search mode_search lines)%nat.
Proof.
  revert st. induction lines as [|line lines IH]; intros st H.
  - cbn in H. injection H as <-. unfold created. cbn. lia.
  - cbn [parse_lines] in H.
    destruct (parse_line output_search mode_search line st) as [e | st1] eqn:E;
      [discriminate|].
    rewrite (IH st1 H). clear IH H.
    unfold created. cbn [filter]. unfold parse_line, kind_of in *.
    destruct (output_search line) as [[[o p] r]|].
    + destruct (flush_modes _ _); [discriminate|]. injection E as <-.
      reflexivity.
    + destruct (mode_search line); injection E as <-; cbn; lia.
Qed.

(** The records before the open one are out of the loop's reach. *)
Lemma parse_lines_frame (pre : list Raw.t) (lines : list string)
      (outs : list Raw.t) (ms : list ModeObj) (n : nat) :
  outs <> [] ->
  parse_lines output_search mode_search lines
    {| st_outputs := (pre ++ outs)%list; st_modes := ms; st_next := n |}
  = match parse_lines output_search mode_search lines
            {| st_outputs := outs; st_modes := ms; st_next := n |} with
    | inr st' => inr {| st_outputs := (pre ++ st_outputs st')%list;
                        st_modes := st_modes st';
                        st_next := st_next st' |}
    | inl e => inl e
    end.
Proof.
  revert outs ms n. induction lines as [|line lines IH]; intros outs ms n Hne.
  - reflexivity.
  - cbn [parse_lines]. unfold parse_line. cbn [st_outputs st_modes st_next].
    destruct (output_search line) as [[[o p] r]|].
    + destruct (nonempty_snoc outs Hne) as (p0 & x & ->).
      rewrite app_assoc, !flush_modes_app. rewrite <- !app_assoc.
      apply IH. intros H. apply app_eq_nil in H. destruct H as [_ H].
      apply app_eq_nil in H. destruct H as [_ H]. discriminate H.
    + destruct (mode_search line); apply IH; exact Hne.
Qed.

Lemma parse_lines_block (lines : list string) (outs : list Raw.t)
      (ms : list ModeObj) (n : nat) :
  (forall line, In line lines -> output_search line = None) ->
  parse_lines output_search mode_search lines
    {| st_outputs := outs; st_modes := ms; st_next := n |}
  = inr {| st_outputs := outs;
           st_modes := (ms ++ modes_from mode_search n lines)%list;
           st_next := (n + length (modes_from mode_search n lines))%nat |}.
Proof.
  revert ms n. induction lines as [|line lines IH]; intros ms n H.
  - cbn. rewrite app_nil_r, Nat.add_0_r. reflexivity.
  - cbn [parse_lines modes_from]. unfold parse_line.
    rewrite (H line (or_introl eq_refl)).
    cbn [st_outputs st_modes st_next].
    assert (H' : forall l, In l lines -> output_search l = None)
      by (intros l Hl; apply H; right; exact Hl).
    destruct (mode_search line) as [m|].
    + rewrite (IH _ _ H'). cbn [length]. rewrite <- app_assoc, Nat.add_succ_r.
      reflexivity.
    + apply IH. exact H'.
Qed.

(** X26: The parser works block by block. An output line followed by lines that
    are not output lines gives one record: the groups of the output line,
    and for ['modes'] the modes of the lines the mode pattern matches, in
    order, or no such key when there is none. And the parse of a report up
    to an output line is not changed by what follows: the records of the
    whole report are those of the part before that line, then those of the
    part from that line on. *)
Theorem the_parse_goes_block_by_block :
  forall (base : nat),
    (forall (o : string) (g : string * option string * option string)
            (ms : list string),
        output_search o = Some g ->
        (forall line, In line ms -> output_search line = None) ->
        parse_xrandr_raw output_search mode_search base (o :: ms)
        = inr [Raw.Build (fst (fst g)) (snd (fst g)) (snd g)
                 (match modes_from mode_search base ms with
                  | [] => None
                  | l => Some l
                  end)])
    /\ (forall (l1 l2 : list string) (o : string)
               (g : string * option string * option string)
               (items1 : list Raw.t),
           parse_xrandr_raw output_search mode_search base l1 = inr items1 ->
           output_search o = Some g ->
           exists items2,
             parse_xrandr_raw output_search mode_search
               (base + created output_search mode_search l1)%nat (o :: l2)
             = inr items2
             /\ parse_xrandr_raw output_search mode_search base (l1 ++ o :: l2)
                = inr (items1 ++ items2)%list).
Proof.
  intros base. split.
  - intros o [[out pr] rot] ms Ho Hms. unfold parse_xrandr_raw.
    cbn [parse_lines]. unfold parse_line. rewrite Ho.
    cbn [st_outputs st_modes st_next flush_modes app].
    rewrite (parse_lines_block ms _ _ _ Hms). cbn [st_outputs st_modes app fst snd].
    destruct (modes_from mode_search base ms); reflexivity.
  - intros l1 l2 o [[out pr] rot] items1 H1 Ho. unfold parse_xrandr_raw in *.
    rewrite parse_lines_app.
    destruct (parse_lines output_search mode_search l1 _) as [e | st1] eqn:E1;
      [discriminate|].
    pose proof (parse_lines_next l1 _ st1 E1) as Hn. cbn [st_next] in Hn.
    rewrite <- Hn. clear Hn.
    cbn [parse_lines]. unfold parse_line. rewrite Ho, H1.
    cbn [st_outputs st_modes st_next flush_modes app].
    rewrite (parse_lines_frame items1 l2 [Raw.Build out pr rot None] []
               (st_next st1)) by discriminate.
    destruct (parse_lines_open l2 [Raw.Build out pr rot None] [] (st_next st1))
      as (st2 & -> & Hne); [discriminate|].
    cbn [st_outputs st_modes].
    destruct (nonempty_snoc (st_outputs st2) Hne) as (p0 & x & ->).
    rewrite app_assoc, !flush_modes_app, <- app_assoc.
    eexists. split; reflexivity.
Qed.

Lemma the_parse_records (base : nat) (lines : list string) (items : list Raw.t) :
  parse_xrandr_raw output_search mode_search base lines = inr items ->
  map groups_of items = opened output_search lines
  /\ (forall r, In r items -> Raw.modes r <> Some []).
Proof.
  unfold parse_xrandr_raw.
  destruct (parse_lines output_search mode_search lines _) as [e | st] eqn:E;
    [discriminate|].
  intros H.
  destruct (parse_lines_groups _ _ _ E) as [G F]. cbn in G, F.
  destruct (flush_modes_groups _ _ _ H) as [G' F']. split.
  - rewrite G', G. reflexivity.
  - apply Forall_forall. apply F', F. constructor.
Qed.

Lemma parse_failure_is_index_error (base : nat) (lines : list string) (e : exn) :
  parse_xrandr_raw output_search mode_search base lines = inl e ->
  e = IndexError "list index out of range".
Proof.
  unfold parse_xrandr_raw. revert base.
  induction lines as [|line lines IH]; intros base; [discriminate|].
  cbn [parse_lines]. unfold parse_line.
  destruct (output_search line) as [[[o p] r]|]; cbn.
  - destruct (parse_lines_open lines [Raw.Build o p r None] [] base)
      as (st' & -> & Hne); [discriminate|].
    destruct (nonempty_snoc (st_outputs st') Hne) as (pre & x & ->).
    rewrite flush_modes_app. discriminate.
  - destruct (mode_search line) as [m|].
    + rewrite parse_lines_orphans by discriminate. congruence.
    + apply IH.
Qed.

End ParserFacts.

(** A mode line above the first output line of the sample report. *)
Lemma the_parse_fails_witness :
  parse_xrandr_raw sample_output_search sample_mode_search 10
    (nth 2 sample_report "" :: sample_report)
  = inl (IndexError "list index out of range").
Proof.
  apply (proj2 (the_parse_fails_iff_a_mode_line_comes_first
                  sample_output_search sample_mode_search 10
                  (nth 2 sample_report "" :: sample_report)
                  (IndexError "list index out of range"))).
  split; reflexivity.
Defined.

(** The sample report: HDMI-1 with two modes, then VGA-1 with one. *)
Lemma the_parse_opens_a_record_witness :
  exists items,
    parse_xrandr_raw sample_output_search sample_mode_search 10 sample_report
    = inr items
    /\ map groups_of items
       = [("HDMI-1", Some " primary", None); ("VGA-1", None, None)].
Proof.
  eexists. split; [reflexivity|].
  apply (the_parse_opens_a_record_per_output_line
           sample_output_search sample_mode_search 10 sample_report).
  reflexivity.
Defined.

(** The last two lines of the sample report. *)
Lemma the_parse_goes_block_by_block_witness :
  parse_xrandr_raw sample_output_search sample_mode_search 10
    [nth 5 sample_report ""; nth 6 sample_report ""]
  = inr [Raw.Build "VGA-1" None None
           (Some [{| addr := 10;
                     obj := Mode.Mode 1024 768 (60 # 1) false true |}])].
Proof.
  apply (proj1 (the_parse_goes_block_by_block
                  sample_output_search sample_mode_search 10)
           (nth 5 sample_report "") ("VGA-1", None, None)
           [nth 6 sample_report ""]).
  - reflexivity.
  - intros line [<- | []]. reflexivity.
Defined.

(** ** The displays the module hands out *)

Lemma init_consistent (name : string) (raw : Raw.t) (d : Display.t) :
  Display.init name raw = inr d ->
  Raw.modes raw <> Some [] ->
  consistent d /\ ScreenSettings.name d = name.
Proof.
  intros Hinit Hne. apply init_inv in Hinit. destruct Hinit as (l & Hm & ->).
  assert (Hl : l <> []) by congruence.
  rewrite (update_from_result raw l (ScreenSettings.init name) Hm).
  rewrite (scan_current_find l _ Hl).
  unfold consistent. cbn. repeat split.
  - apply find_some in H. apply H.
  - apply find_some in H. apply H.
  - destruct l; [congruence | reflexivity].
  - exact Hl.
Qed.

Lemma update_from_consistent (raw : Raw.t) (l : list ModeObj) (d : Display.t) :
  Raw.modes raw = Some l -> l <> [] ->
  consistent (snd (Display.update_from raw d)).
Proof.
  intros Hm Hl.
  rewrite (update_from_result raw l d Hm).
  rewrite (scan_current_find l _ Hl).
  unfold consistent. cbn. repeat split.
  - apply find_some in H. apply H.
  - apply find_some in H. apply H.
  - destruct l; [congruence | reflexivity].
  - exact Hl.
Qed.

Lemma build_displays_ok (items : list Raw.t) (ds : list Display.t) :
  build_displays items = inr ds ->
  (forall r, In r items -> Raw.modes r <> Some []) ->
  map ScreenSettings.name ds = map Raw.out items
  /\ Forall consistent ds.
Proof.
  revert ds. induction items as [|item items IH]; intros ds H Hne.
  - injection H as <-. split; [reflexivity | constructor].
  - cbn in H.
    destruct (Display.init (Raw.out item) item) as [e | d] eqn:E; [discriminate|].
    destruct (build_displays items) as [e | ds'] eqn:E'; [discriminate|].
    injection H as <-.
    destruct (IH ds' eq_refl) as [N C];
      [intros r Hr; apply Hne; right; exact Hr|].
    destruct (init_consistent _ _ _ E) as [Cd Nd];
      [apply Hne; left; reflexivity|].
    split; [cbn; rewrite Nd, N; reflexivity | constructor; assumption].
Qed.

Lemma build_displays_fails (items : list Raw.t) (e : exn) :
  build_displays items = inl e
  <-> e = KeyError "modes" /\ exists r, In r items /\ Raw.modes r = None.
Proof.
  induction items as [|item items IH]; cbn.
  - split; [discriminate | intros [_ (r & [] & _)]].
  - destruct (Display.init (Raw.out item) item) as [e' | d] eqn:E.
    + unfold Display.init in E.
      destruct (Raw.modes item) as [l|] eqn:Hm.
      * destruct (update_from_modes item l (ScreenSettings.init (Raw.out item)) Hm)
          as (E' & _).
        rewrite E' in E. discriminate.
      * rewrite (update_from_no_modes item _ Hm) in E. injection E as <-.
        split; [intros [= <-]; split; [reflexivity | eauto] |].
        intros [-> _]. reflexivity.
    + assert (Hm : Raw.modes item <> None).
      { intros Hm. unfold Display.init in E.
        rewrite (update_from_no_modes item _ Hm) in E. discriminate. }
      destruct (build_displays items) as [e' | ds].
      * rewrite IH. split.
        -- intros [-> (r & Hr & Hn)]. split; [reflexivity|]. eauto.
        -- intros [-> (r & [<- | Hr] & Hn)]; [congruence|]. eauto.
      * split; [discriminate|].
        intros [-> (r & [<- | Hr] & Hn)]; [congruence|].
        assert (X : @inr exn (list Display.t) ds = inl (KeyError "modes")).
        { apply IH. eauto. }
        discriminate X.
Qed.

(** X27: [connected_displays], when it returns, returns one display per output
    line of the report, in order and named after it, each with nothing
    pending, connected, with a mode list that is not empty, enabled exactly
    when it has a current mode, and a current mode that is one of its modes
    and flagged current. *)
Theorem connected_displays_are_consistent :
  forall (output_search : string -> option (string * option string * option string))
         (mode_search : string -> option Mode.t)
         (W : Type) (exec_cmd : command -> M W (list string)) (base : nat)
         (w w' : W) (ds : list Display.t),
    connected_displays output_search mode_search exec_cmd base w = (inr ds, w') ->
    (exists lines,
        exec_cmd [Some "xrandr"] w = (inr lines, w')
        /\ map ScreenSettings.name ds
           = map (fun g => fst (fst g)) (opened output_search lines))
    /\ Forall consistent ds.
Proof.
  intros os ms W exec_cmd base w w' ds.
  unfold connected_displays, parse_xrandr. unfold_monad.
  destruct (exec_cmd [Some "xrandr"] w) as [[e | lines] w1]; [discriminate|].
  destruct (parse_xrandr_raw os ms base lines) as [e | items] eqn:Hp;
    [discriminate|].
  destruct (build_displays items) as [e | ds'] eqn:Hb; [discriminate|].
  intros [= <- <-].
  destruct (the_parse_records os ms base lines items Hp) as [G Hne].
  destruct (build_displays_ok items ds' Hb Hne) as [N C].
  split; [| exact C].
  exists lines. split; [reflexivity|].
  rewrite N, <- G, map_map. reflexivity.
Qed.

(** The sample report gives HDMI-1 and VGA-1. *)
Lemma connected_displays_witness :
  connected_displays sample_output_search sample_mode_search xrandr_reports 10 []
  = (inr sample_displays, [[Some "xrandr"]])
  /\ map ScreenSettings.name sample_displays = ["HDMI-1"; "VGA-1"]
  /\ Forall consistent sample_displays.
Proof.
  assert (E : connected_displays sample_output_search sample_mode_search
                xrandr_reports 10 []
              = (inr sample_displays, [[Some "xrandr"]]))
    by (vm_compute; reflexivity).
  split; [exact E|]. split; [vm_compute; reflexivity|].
  exact (proj2 (connected_displays_are_consistent
                  sample_output_search sample_mode_search (list command)
                  xrandr_reports 10 [] [[Some "xrandr"]] sample_displays E)).
Defined.

(** X28: [parse_xrandr(lines)] raises [KeyError('modes')] exactly when the report
    parses into records and one of them has no ['modes'] key, an output
    line with no mode line under it: one such output, and no display at all
    is returned. The only other exception is the parser's [IndexError]. *)
Theorem one_output_without_modes_fails_the_listing :
  forall (output_search : string -> option (string * option string * option string))
         (mode_search : string -> option Mode.t)
         (base : nat) (lines : list string),
    (parse_xrandr output_search mode_search base lines = inl (KeyError "modes")
     <-> exists items,
        parse_xrandr_raw output_search mode_search base lines = inr items
        /\ exists r, In r items /\ Raw.modes r = None)
    /\ (forall e,
           parse_xrandr output_search mode_search base lines = inl e ->
           e = KeyError "modes" \/ e = IndexError "list index out of range").
Proof.
  intros os ms base lines. unfold parse_xrandr.
  destruct (parse_xrandr_raw os ms base lines) as [e0 | items] eqn:Hp.
  - apply parse_failure_is_index_error in Hp. subst e0.
    split.
    + split; [discriminate | intros (items & H & _); discriminate H].
    + intros e [= <-]. right. reflexivity.
  - split.
    + rewrite build_displays_fails. split.
      * intros [_ H]. exists items. auto.
      * intros (items' & [= <-] & H). auto.
    + intros e H. apply build_displays_fails in H. left. apply H.
Qed.

(** VGA-1 connected, with no mode line under it. *)
Lemma one_output_without_modes_witness :
  parse_xrandr sample_output_search sample_mode_search 10
    [nth 1 sample_report ""; nth 2 sample_report ""; nth 5 sample_report ""]
  = inl (KeyError "modes").
Proof.
  apply (proj1 (one_output_without_modes_fails_the_listing
                  sample_output_search sample_mode_search 10
                  [nth 1 sample_report ""; nth 2 sample_report "";
                   nth 5 sample_report ""])).
  eexists. split; [reflexivity|].
  exists (Raw.Build "VGA-1" None None None). split; [|reflexivity].
  right. left. reflexivity.
Defined.

(** X29: [enabled_displays] returns the displays [connected_displays] returns
    that are enabled, in the same order, and raises what it raises; each of
    them has a current mode, one of the modes it lists. *)
Theorem enabled_displays_have_a_current_mode :
  forall (output_search : string -> option (string * option string * option string))
         (mode_search : string -> option Mode.t)
         (W : Type) (exec_cmd : command -> M W (list string)) (base : nat)
         (w : W),
    enabled_displays output_search mode_search exec_cmd base w
    = match connected_displays output_search mode_search exec_cmd base w with
      | (inr all, w') => (inr (filter ScreenSettings.is_enabled all), w')
      | (inl e, w') => (inl e, w')
      end
    /\ (forall (ds : list Display.t) (w' : W),
           enabled_displays output_search mode_search exec_cmd base w
           = (inr ds, w') ->
           forall d, In d ds ->
                     ScreenSettings.is_enabled d = true
                     /\ exists m, ScreenSettings.curr_mode d = Some m
                                  /\ In m (ScreenSettings.modes d)).
Proof.
  intros os ms W exec_cmd base w.
  assert (E : enabled_displays os ms exec_cmd base w
              = match connected_displays os ms exec_cmd base w with
                | (inr all, w') => (inr (filter ScreenSettings.is_enabled all), w')
                | (inl e, w') => (inl e, w')
                end).
  { unfold enabled_displays. unfold bind at 1. unfold ret.
    destruct (connected_displays os ms exec_cmd base w) as [[e | all] w'];
      reflexivity. }
  split; [exact E|].
  intros ds w' H d Hd. rewrite E in H.
  destruct (connected_displays os ms exec_cmd base w) as [[e | all] w1] eqn:Hc;
    [discriminate|].
  injection H as <- <-.
  apply filter_In in Hd. destruct Hd as [Hin He].
  split; [exact He|].
  assert (C : Forall consistent all).
  { unfold connected_displays, parse_xrandr in Hc. unfold_monad.
    unfold bind, lift in Hc.
    destruct (exec_cmd [Some "xrandr"] w) as [[e | lines] w2]; [discriminate|].
    destruct (parse_xrandr_raw os ms base lines) as [e | items] eqn:Hp;
      [discriminate|].
    destruct (build_displays items) as [e | ds'] eqn:Hb; [discriminate|].
    injection Hc as <- <-.
    apply (build_displays_ok items ds' Hb).
    apply (the_parse_records os ms base lines items Hp). }
  rewrite Forall_forall in C. destruct (C d Hin) as (Hcur & Hen & _).
  rewrite Hen in He.
  destruct (ScreenSettings.curr_mode d) as [m|]; [|discriminate].
  exists m. split; [reflexivity|]. apply (Hcur m eq_refl).
Qed.

(** Of the sample report's two displays, HDMI-1 is the enabled one. *)
Lemma enabled_displays_witness :
  enabled_displays sample_output_search sample_mode_search xrandr_reports 10 []
  = (inr (filter ScreenSettings.is_enabled sample_displays), [[Some "xrandr"]])
  /\ map ScreenSettings.name (filter ScreenSettings.is_enabled sample_displays)
     = ["HDMI-1"]
  /\ ScreenSettings.is_enabled (nth 0 sample_displays vga1) = true.
Proof.
  assert (E : enabled_displays sample_output_search sample_mode_search
                xrandr_reports 10 []
              = (inr (filter ScreenSettings.is_enabled sample_displays),
                 [[Some "xrandr"]]))
    by (vm_compute; reflexivity).
  split; [exact E|]. split; [vm_compute; reflexivity|].
  apply (proj2 (enabled_displays_have_a_current_mode
                  sample_output_search sample_mode_search (list command)
                  xrandr_reports 10 [])
           (filter ScreenSettings.is_enabled sample_displays) [[Some "xrandr"]] E
           (nth 0 sample_displays vga1)).
  vm_compute. left. reflexivity.
Defined.

(** ** Refreshing through the query *)

Lemma get_display_data_inv (W : Type) (exec_cmd : command -> M W (list string))
      (parse : list string -> result (list Raw.t))
      (output : string) (w w' : W) (raw : Raw.t) :
  get_display_data exec_cmd parse output w = (inr raw, w') ->
  exists lines items, parse lines = inr items /\ In raw items.
Proof.
  unfold get_display_data. unfold_monad.
  destruct (exec_cmd [Some "xrandr"] w) as [[e | lines] w1]; [discriminate|].
  destruct (parse lines) as [e | items] eqn:Hp; [discriminate|].
  destruct (find _ items) as [item|] eqn:Hf; [|discriminate].
  intros [= <- <-]. exists lines, items. split; [exact Hp|].
  apply find_some in Hf. apply Hf.
Qed.

Lemma update_setting_none_cases (W : Type)
      (exec_cmd : command -> M W (list string))
      (parse : list string -> result (list Raw.t)) (d : Display.t) (w : W) :
  update_setting exec_cmd parse None (d, w)
  = match get_display_data exec_cmd parse (ScreenSettings.name d) w with
    | (inr raw, w') =>
        (fst (Display.update_from raw d), (snd (Display.update_from raw d), w'))
    | (inl e, w') => (inl e, (d, w'))
    end.
Proof.
  unfold update_setting, on_display, in_world. unfold_monad. cbn.
  destruct (get_display_data exec_cmd parse (ScreenSettings.name d) w)
    as [[e | raw] w']; cbn; [reflexivity|].
  destruct (Display.update_from raw d). reflexivity.
Qed.

(** X30: Through the query, a refresh never leaves a current mode that is not in
    the mode list: a record the parser returns has no empty list of modes,
    so after an [update_setting()] or an [apply_settings] that returns, the
    display is connected, lists at least one mode, is enabled exactly when
    it has a current mode, and its current mode is one of the listed modes
    and flagged current. *)
Theorem a_refresh_through_the_query_is_consistent :
  forall (output_search : string -> option (string * option string * option string))
         (mode_search : string -> option Mode.t)
         (W : Type) (exec_cmd : command -> M W (list string)) (base : nat)
         (d : Display.t) (w : W),
    (fst (update_setting exec_cmd
            (parse_xrandr_raw output_search mode_search base) None (d, w))
     = inr tt ->
     consistent
       (fst (snd (update_setting exec_cmd
                    (parse_xrandr_raw output_search mode_search base) None
                    (d, w)))))
    /\ (forall default : bool,
           fst (apply_settings exec_cmd
                  (parse_xrandr_raw output_search mode_search base) default
                  (d, w)) = inr tt ->
           consistent
             (fst (snd (apply_settings exec_cmd
                          (parse_xrandr_raw output_search mode_search base)
                          default (d, w))))).
Proof.
  intros os ms W exec_cmd base d w.
  assert (R : forall w0,
             fst (refresh exec_cmd (parse_xrandr_raw os ms base) d w0) = inr tt ->
             consistent
               (fst (snd (refresh exec_cmd (parse_xrandr_raw os ms base) d w0)))).
  { intros w0.
    destruct (refresh_outcome W exec_cmd (parse_xrandr_raw os ms base) d w0)
      as [(e & w' & E) | (raw & l & w' & Hq & Hm & E)]; rewrite E; cbn;
      [discriminate|].
    intros _. apply (update_from_consistent raw l d Hm).
    destruct (get_display_data_inv W exec_cmd _ _ _ _ _ Hq)
      as (lines & items & Hp & Hin).
    destruct (the_parse_records os ms base lines items Hp) as [_ Hne].
    specialize (Hne raw Hin). congruence. }
  split.
  - rewrite update_setting_none_cases.
    destruct (get_display_data exec_cmd (parse_xrandr_raw os ms base)
                (ScreenSettings.name d) w) as [[e | raw] w'] eqn:Hq;
      [discriminate|].
    cbn [fst snd]. intros Hok.
    destruct (Raw.modes raw) as [l|] eqn:Hm.
    + apply (update_from_consistent raw l d Hm).
      destruct (get_display_data_inv W exec_cmd _ _ _ _ _ Hq)
        as (lines & items & Hp & Hin).
      destruct (the_parse_records os ms base lines items Hp) as [_ Hne].
      specialize (Hne raw Hin). congruence.
    + rewrite (update_from_no_modes raw d Hm) in Hok. discriminate.
  - intros default. rewrite apply_settings_cases.
    destruct (settle_command default d) as [e | [cmd |]]; [discriminate | |].
    + destruct (exec_cmd cmd w) as [[e | lines] w']; [discriminate|]. apply R.
    + apply R.
Qed.

(** HDMI-1, its rotation pending, applied in the world of the sample
    report. *)
Lemma a_refresh_through_the_query_witness :
  consistent
    (fst (snd (apply_settings xrandr_reports
                 (parse_xrandr_raw sample_output_search sample_mode_search 10)
                 false (hdmi1_rotated, [])))).
Proof.
  apply (proj2 (a_refresh_through_the_query_is_consistent
                  sample_output_search sample_mode_search (list command)
                  xrandr_reports 10 hdmi1_rotated []) false).
  vm_compute. reflexivity.
Defined.
